(** * GAGHL_AVR_I2C: the TWI (I2C) master driver for AVR, embedded in Rocq

    The driver of [GAGHL_AVR_I2C.c] talks to the TWI unit of an ATmega
    through five memory-mapped 8-bit registers.  The embedding keeps that
    shape: every access to a register is an event handed to an abstract
    device (class [Twi]), the driver functions are programs of a small
    monad that threads the device state, collects the register events and
    can fail in two ways (a busy-wait that is never released, or C
    undefined behaviour).

    Integers are [Z] with the wrap-around of the C types written out for
    the AVR target the file is compiled for ([<avr/io.h>], avr-gcc):
    [uint8_t] is 8 bits, [int] and [unsigned int] (= [uint16_t]) are 16
    bits, [unsigned long] is 32 bits. *)

From Stdlib Require Import ZArith Lia Bool.
From stdpp Require Import base list.

Local Open Scope Z_scope.

(** ** Machine integers *)

Definition u8 (x : Z) : Z := x mod 2 ^ 8.
Definition u16 (x : Z) : Z := x mod 2 ^ 16.
Definition u32 (x : Z) : Z := x mod 2 ^ 32.

(** ** The register file of the TWI unit *)

Inductive reg : Set := TWBR | TWSR | TWAR | TWDR | TWCR.

#[global] Instance reg_eq_dec : EqDecision reg.
Proof. solve_decision. Defined.

(** Bit numbers of the control register TWCR, as [<avr/io.h>] gives them
    for the ATmega TWI unit (the header is part of avr-libc, not of the
    driver). *)
Definition TWINT : Z := 7.
Definition TWEA : Z := 6.
Definition TWSTA : Z := 5.
Definition TWSTO : Z := 4.
Definition TWEN : Z := 2.

(** [#define F_CPU 8000000UL] *)
Definition F_CPU : Z := 8000000.

(** One access to a register: a store of a byte or a load that returned a
    byte.  The registers are [volatile], so every access of the source is
    one event, in program order. *)
Inductive io : Set :=
  | Wr (r : reg) (v : Z)
  | Rd (r : reg) (v : Z).

(** The hardware behind the registers.  Nothing is assumed about it: a
    store may change its state in any way, and so may a load (reading is
    how time passes while the driver polls). *)
Class Twi (dev : Type) := {
  reg_store : reg -> Z -> dev -> dev;
  reg_load : reg -> dev -> Z * dev
}.

(** ** The driver monad *)

Inductive outcome (dev A : Type) : Type :=
  | Ret (a : A) (t : list io) (s : dev)   (* returned [a], after the accesses [t] *)
  | Spin                                  (* a busy-wait used up its fuel *)
  | Undef.                                (* undefined behaviour in C *)

Arguments Ret {dev A} a t s.
Arguments Spin {dev A}.
Arguments Undef {dev A}.

Definition M (dev A : Type) : Type := dev -> outcome dev A.

Definition ret {dev A} (a : A) : M dev A := fun s => Ret a [] s.

Definition bind {dev A B} (m : M dev A) (f : A -> M dev B) : M dev B :=
  fun s =>
    match m s with
    | Ret a t s1 =>
        match f a s1 with
        | Ret b t' s2 => Ret b (t ++ t') s2
        | Spin => Spin
        | Undef => Undef
        end
    | Spin => Spin
    | Undef => Undef
    end.

Definition spin {dev A} : M dev A := fun _ => Spin.
Definition undef {dev A} : M dev A := fun _ => Undef.

Declare Scope drv_scope.
Delimit Scope drv_scope with drv.
Notation "x <- m ;; k" := (bind m (fun x => k))
  (at level 100, m at next level, right associativity) : drv_scope.
Notation "m ;; k" := (bind m (fun _ => k))
  (at level 100, right associativity) : drv_scope.
Local Open Scope drv_scope.

Section Driver.
Context {dev : Type} `{!Twi dev}.

(** [REG = v;] on an 8-bit register. *)
Definition reg_write (r : reg) (v : Z) : M dev unit :=
  fun s => Ret tt [Wr r (u8 v)] (reg_store r (u8 v) s).

(** An rvalue use of [REG]: one load of 8 bits. *)
Definition reg_read (r : reg) : M dev Z :=
  fun s => let '(v, s') := reg_load r s in Ret (u8 v) [Rd r (u8 v)] s'.

(** [while (!(TWCR & (1 << TWINT)));] with at most [fuel] loads of TWCR. *)
Fixpoint wait_TWINT (fuel : nat) : M dev unit :=
  match fuel with
  | O => spin
  | S n =>
      c <- reg_read TWCR ;;
      if Z.land c (1 ≪ TWINT) =? 0 then wait_TWINT n else ret tt
  end.

Definition i2c_init (freq : Z) : M dev unit :=
  reg_write TWSR 0x00 ;;
  (* [freq * 1000]: [uint16_t] times [int], evaluated in [unsigned int] *)
  let khz := u16 (freq * 1000) in
  (if khz =? 0 then undef
   else reg_write TWBR (u32 (F_CPU / khz - 16) / 2)) ;;
  reg_write TWCR (1 ≪ TWEN).

Definition i2c_start (fuel : nat) : M dev unit :=
  reg_write TWCR (Z.lor (Z.lor (1 ≪ TWINT) (1 ≪ TWSTA)) (1 ≪ TWEN)) ;;
  wait_TWINT fuel.

Definition i2c_stop : M dev unit :=
  reg_write TWCR (Z.lor (Z.lor (1 ≪ TWINT) (1 ≪ TWSTO)) (1 ≪ TWEN)).

Definition i2c_write (fuel : nat) (Data : Z) : M dev Z :=
  reg_write TWDR Data ;;
  reg_write TWCR (Z.lor (1 ≪ TWINT) (1 ≪ TWEN)) ;;
  wait_TWINT fuel ;;
  sr <- reg_read TWSR ;;
  let status := Z.land sr 0xF8 in
  if negb (status =? 0x18) && negb (status =? 0x28)
     && negb (status =? 0x40) && negb (status =? 0x50)
  then ret 0
  else ret 1.

Definition i2c_read_ack (fuel : nat) : M dev Z :=
  reg_write TWCR (Z.lor (Z.lor (1 ≪ TWINT) (1 ≪ TWEN)) (1 ≪ TWEA)) ;;
  wait_TWINT fuel ;;
  reg_read TWDR.

Definition i2c_read_no_ack (fuel : nat) : M dev Z :=
  reg_write TWCR (Z.lor (1 ≪ TWINT) (1 ≪ TWEN)) ;;
  wait_TWINT fuel ;;
  reg_read TWDR.

Definition i2c_set_MCU_address (Address : Z) : M dev unit :=
  reg_write TWAR (Address ≪ 1) ;;
  reg_write TWCR (Z.lor (1 ≪ TWEN) (1 ≪ TWEA)).

Definition i2c_writeByte (fuel : nat) (Slave_Address Data : Z) : M dev unit :=
  i2c_start fuel ;;
  i2c_write fuel (u8 (Slave_Address ≪ 1)) ;;
  i2c_write fuel Data ;;
  i2c_stop.

Definition i2c_readByte (fuel : nat) (Slave_Address : Z) : M dev Z :=
  i2c_start fuel ;;
  i2c_write fuel (u8 (Z.lor (Slave_Address ≪ 1) 1)) ;;
  data <- i2c_read_no_ack fuel ;;
  i2c_stop ;;
  ret data.

(** The [while] loop of [i2c_pagewrite].  [str] is the array the pointer
    points into, one [Z] per [char]; running off its end without meeting
    the terminator is undefined.  The result is [Some v] when the loop
    body executed [return v], [None] when the loop ran to its end. *)
Fixpoint pagewrite_loop (fuel : nat) (str : list Z) : M dev (option Z) :=
  match str with
  | [] => undef
  | c :: str' =>
      if c =? 0 then ret None
      else
        ack <- i2c_write fuel (u8 c) ;;
        if ack =? 0 then ret (Some 0) else pagewrite_loop fuel str'
  end.

Definition i2c_pagewrite (fuel : nat) (Slave_Address : Z) (str : list Z)
  : M dev Z :=
  i2c_start fuel ;;
  i2c_write fuel (u8 (Slave_Address ≪ 1)) ;;
  r <- pagewrite_loop fuel str ;;
  match r with
  | Some v => ret v
  | None => i2c_stop ;; ret 1
  end.

(** [buffer[i] = c;] on the caller's array: a store outside the array is
    undefined.  A cell holds the 8 bits of the [char]. *)
Definition buf_store (buffer : list Z) (i : Z) (c : Z) : M dev (list Z) :=
  if (0 <=? i) && (i <? Z.of_nat (length buffer))
  then ret (<[Z.to_nat i := u8 c]> buffer)
  else undef.

(** The [for] loop of [i2c_pageread], entered with counter [i].  The
    counter is a [uint8_t]: the test [i < length] is made before every
    iteration, and [n] bounds the number of iterations (256 is enough
    for a loop that ends, the counter has no more values). *)
Fixpoint pageread_loop (fuel : nat) (n : nat) (i length : Z)
    (buffer : list Z) : M dev (list Z) :=
  if i <? length then
    match n with
    | O => spin
    | S n' =>
        c <- (if i =? length - 1 then i2c_read_no_ack fuel
              else i2c_read_ack fuel) ;;
        buffer' <- buf_store buffer i c ;;
        pageread_loop fuel n' (u8 (i + 1)) length buffer'
    end
  else ret buffer.

Definition i2c_pageread (fuel : nat) (Slave_Address : Z) (buffer : list Z)
    (length : Z) : M dev (list Z) :=
  i2c_start fuel ;;
  i2c_write fuel (u8 (Z.lor (Slave_Address ≪ 1) 1)) ;;
  buffer1 <- pageread_loop fuel 256 0 length buffer ;;
  buffer2 <- (if length >? 0 then buf_store buffer1 (length - 1) 0
              else ret buffer1) ;;
  i2c_stop ;;
  ret buffer2.

End Driver.

(** ** Reading a trace of register accesses *)

(** The four control words the driver stores into TWCR to make the unit
    act. *)
Definition CW_START : Z := Z.lor (Z.lor (1 ≪ TWINT) (1 ≪ TWSTA)) (1 ≪ TWEN).
Definition CW_STOP : Z := Z.lor (Z.lor (1 ≪ TWINT) (1 ≪ TWSTO)) (1 ≪ TWEN).
Definition CW_XFER : Z := Z.lor (1 ≪ TWINT) (1 ≪ TWEN).
Definition CW_XFER_ACK : Z := Z.lor (Z.lor (1 ≪ TWINT) (1 ≪ TWEN)) (1 ≪ TWEA).

(** The primitive bus operations of the driver. *)
Inductive prim : Set :=
  | Start
  | Stop
  | Write (b : Z)
  | ReadAck
  | ReadNoAck.

#[global] Instance prim_eq_dec : EqDecision prim.
Proof. solve_decision. Defined.

(** The primitive operations a trace asked the unit to perform, read off
    the stores alone: a store of a control word into TWCR triggers one
    operation; the plain transfer word sends the byte that was just put
    into TWDR ([pending]) and receives without acknowledgment when no byte
    was put there.  Loads and stores to other registers trigger nothing. *)
Fixpoint decode (pending : option Z) (t : list io) : list prim :=
  match t with
  | [] => []
  | Rd _ _ :: t' => decode pending t'
  | Wr TWDR d :: t' => decode (Some d) t'
  | Wr TWCR c :: t' =>
      if c =? CW_START then Start :: decode None t'
      else if c =? CW_STOP then Stop :: decode None t'
      else if c =? CW_XFER_ACK then ReadAck :: decode None t'
      else if c =? CW_XFER then
        match pending with
        | Some d => Write d :: decode None t'
        | None => ReadNoAck :: decode None t'
        end
      else decode None t'
  | Wr _ _ :: t' => decode pending t'
  end.

Definition bus_ops (t : list io) : list prim := decode None t.

(** The bytes loaded from the data register, in order. *)
Fixpoint data_reads (t : list io) : list Z :=
  match t with
  | [] => []
  | Rd TWDR v :: t' => v :: data_reads t'
  | _ :: t' => data_reads t'
  end.

(** The bytes loaded from the status register, in order. *)
Fixpoint status_reads (t : list io) : list Z :=
  match t with
  | [] => []
  | Rd TWSR v :: t' => v :: status_reads t'
  | _ :: t' => status_reads t'
  end.

(** The bytes stored into a given register, in order. *)
Fixpoint stores_to (r : reg) (t : list io) : list Z :=
  match t with
  | [] => []
  | Wr r' v :: t' => if decide (r' = r) then v :: stores_to r t' else stores_to r t'
  | Rd _ _ :: t' => stores_to r t'
  end.

(** How often a primitive occurs in a list of operations. *)
Definition count_op (p : prim) (l : list prim) : nat :=
  length (filter (fun q => q = p) l).

(** The status codes [i2c_write] accepts (upper five bits of TWSR). *)
Definition ack_codes : list Z := [0x18; 0x28; 0x40; 0x50].

(** A status byte that [i2c_write] takes for an acknowledgment. *)
Definition acked (sr : Z) : Prop := Z.land sr 0xF8 ∈ ack_codes.

(** ** Two concrete devices *)

(** A device that replays a script: the status and data registers return
    the next byte of the script at every load, and the ready flag comes up
    at the second poll after a store to TWCR. *)
Record replay : Type := Replay { busy : bool; script : list Z }.

#[global] Instance replay_twi : Twi replay := {
  reg_store r _ s :=
    match r with
    | TWCR => Replay true (script s)
    | _ => s
    end;
  reg_load r s :=
    match r with
    | TWCR => if busy s then (0x04, Replay false (script s)) else (0x84, s)
    | _ =>
        match script s with
        | [] => (0, s)
        | v :: l => (v, Replay (busy s) l)
        end
    end
}.

(** A device whose ready flag never comes up: every load returns 0. *)
Inductive stuck : Type := Stuck.

#[global] Instance stuck_twi : Twi stuck := {
  reg_store _ _ s := s;
  reg_load _ s := (0, s)
}.

(** A device that is always ready and acknowledges everything: the
    control register reads as ready at once and the status register
    always reads 0x28 (data transmitted, acknowledgment received). *)
Inductive compliant : Type := Compliant.

#[global] Instance compliant_twi : Twi compliant := {
  reg_store _ _ s := s;
  reg_load r s :=
    match r with
    | TWCR => (0x84, s)
    | TWSR => (0x28, s)
    | _ => (0, s)
    end
}.

(** "Every busy-wait is released within [bound] polls": from any state of
    the device, [bound] loads of TWCR are enough to see the flag. *)
Definition responsive (dev : Type) `{!Twi dev} (bound : nat) : Prop :=
  forall s : dev, exists t s', wait_TWINT bound s = Ret tt t s'.

(** The flag is never seen: every load of TWCR has bit TWINT clear. *)
Definition never_ready (dev : Type) `{!Twi dev} : Prop :=
  forall s : dev, Z.land (u8 (reg_load TWCR s).1) (1 ≪ TWINT) = 0.

(** The device while the driver polls: its state after [n] loads of the
    control register, the byte the load number [k] (from 0) returns, and
    the accesses that [n] loads make. *)
Fixpoint after_polls {dev : Type} `{!Twi dev} (n : nat) (s : dev) : dev :=
  match n with
  | O => s
  | S n' => after_polls n' (reg_load TWCR s).2
  end.

Definition poll_value {dev : Type} `{!Twi dev} (k : nat) (s : dev) : Z :=
  u8 (reg_load TWCR (after_polls k s)).1.

Fixpoint poll_trace {dev : Type} `{!Twi dev} (n : nat) (s : dev) : list io :=
  match n with
  | O => []
  | S n' => Rd TWCR (u8 (reg_load TWCR s).1) :: poll_trace n' (reg_load TWCR s).2
  end.

(** From the state [s], the load number [k] of the control register is
    the first that shows the ready flag. *)
Definition first_ready {dev : Type} `{!Twi dev} (k : nat) (s : dev) : Prop :=
  (forall j, (j < k)%nat -> Z.land (poll_value j s) (1 ≪ TWINT) = 0)
  /\ Z.land (poll_value k s) (1 ≪ TWINT) <> 0.

(** From the state [s], no load of the control register ever shows the
    ready flag. *)
Definition never_flagged_from {dev : Type} `{!Twi dev} (s : dev) : Prop :=
  forall k, Z.land (poll_value k s) (1 ≪ TWINT) = 0.

(** The bytes of a C string: the cells before the first [0]. *)
Fixpoint payload (str : list Z) : list Z :=
  match str with
  | [] => []
  | c :: str' => if c =? 0 then [] else c :: payload str'
  end.


(** A trace of polls: loads of the control register only. *)
Definition polls (t : list io) : Prop :=
  Forall (fun e => exists v, e = Rd TWCR v) t.

(** [framed t ops]: whatever follows, the trace [t] decodes to [ops] and
    leaves no byte pending in the data register. *)
Definition framed (t : list io) (ops : list prim) : Prop :=
  forall rest, decode None (t ++ rest) = ops ++ decode None rest.

(** [does m s Q]: from the device state [s] the program [m] returns, and
    its result [a], the primitive operations [ops] of its trace and the
    bytes [rx] it loaded from the data register satisfy [Q a ops rx]. *)
Definition does {dev A} (m : M dev A) (s : dev)
    (Q : A -> list prim -> list Z -> Prop) : Prop :=
  exists a t s',
    m s = Ret a t s' /\ exists ops, framed t ops /\ Q a ops (data_reads t).

(** * Properties *)

(** ** Machine integers *)

Lemma u8_range (x : Z) : 0 <= u8 x < 256.
Proof. unfold u8. apply Z.mod_pos_bound. lia. Qed.

Lemma u8_small (x : Z) : 0 <= x < 256 -> u8 x = x.
Proof. intros. unfold u8. apply Z.mod_small. lia. Qed.

Lemma u8_idem (x : Z) : u8 (u8 x) = u8 x.
Proof. apply u8_small, u8_range. Qed.

(** ** The monad *)

Lemma bind_Ret {dev A B} (m : M dev A) (f : A -> M dev B) s a t s1 b t' s2 :
  m s = Ret a t s1 -> f a s1 = Ret b t' s2 ->
  bind m f s = Ret b (t ++ t') s2.
Proof. intros Hm Hf. unfold bind. now rewrite Hm, Hf. Qed.

Lemma bind_Ret_inv {dev A B} (m : M dev A) (f : A -> M dev B) s b t s2 :
  bind m f s = Ret b t s2 ->
  exists a t1 s1 t2,
    m s = Ret a t1 s1 /\ f a s1 = Ret b t2 s2 /\ t = t1 ++ t2.
Proof.
  unfold bind. destruct (m s) as [a t1 s1| |]; try discriminate.
  destruct (f a s1) as [b' t2 s2'| |] eqn:Hf; try discriminate.
  intros [= -> <- ->]. now exists a, t1, s1, t2.
Qed.

Lemma bind_Spin {dev A B} (m : M dev A) (f : A -> M dev B) s :
  m s = Spin -> bind m f s = Spin.
Proof. intros Hm. unfold bind. now rewrite Hm. Qed.

Lemma bind_Ret_Spin {dev A B} (m : M dev A) (f : A -> M dev B) s a t s1 :
  m s = Ret a t s1 -> f a s1 = Spin -> bind m f s = Spin.
Proof. intros Hm Hf. unfold bind. now rewrite Hm, Hf. Qed.

(** ** Traces *)

Lemma decode_polls p t rest : polls t -> decode p (t ++ rest) = decode p rest.
Proof.
  induction 1 as [|e t [v ->] _ IH]; simpl; auto.
Qed.

Lemma data_reads_app t1 t2 :
  data_reads (t1 ++ t2) = data_reads t1 ++ data_reads t2.
Proof.
  induction t1 as [|[r v|r v] t1 IH]; simpl; auto.
  destruct r; simpl; auto. now rewrite IH.
Qed.

Lemma data_reads_polls t : polls t -> data_reads t = [].
Proof. induction 1 as [|e t [v ->] _ IH]; simpl; auto. Qed.

Lemma framed_nil : framed [] [].
Proof. now intros rest. Qed.

Lemma framed_app t1 t2 o1 o2 :
  framed t1 o1 -> framed t2 o2 -> framed (t1 ++ t2) (o1 ++ o2).
Proof.
  intros H1 H2 rest. now rewrite <- !app_assoc, H1, H2.
Qed.

Lemma framed_bus_ops t ops : framed t ops -> bus_ops t = ops.
Proof.
  intros H. unfold bus_ops. specialize (H []).
  now rewrite !app_nil_r in H.
Qed.

Lemma framed_polls t : polls t -> framed t [].
Proof. intros H rest. now apply decode_polls. Qed.

Lemma count_op_app p l1 l2 :
  count_op p (l1 ++ l2) = (count_op p l1 + count_op p l2)%nat.
Proof. unfold count_op. now rewrite filter_app, length_app. Qed.

Lemma count_op_replicate_ne p q n : q <> p -> count_op p (replicate n q) = 0%nat.
Proof.
  intros Hne. unfold count_op. induction n as [|n IH]; simpl; auto.
  rewrite filter_cons_False; auto.
Qed.

(** ** The busy-wait *)

Section Wait.
Context {dev : Type} `{!Twi dev}.

Lemma reg_read_eq (r : reg) (s : dev) :
  reg_read r s
  = Ret (u8 (reg_load r s).1) [Rd r (u8 (reg_load r s).1)] (reg_load r s).2.
Proof. unfold reg_read. now destruct (reg_load r s). Qed.

(** A wait that returns has only polled, and its last poll saw the
    flag. *)
Lemma wait_TWINT_trace fuel (s : dev) a t s' :
  wait_TWINT fuel s = Ret a t s' ->
  polls t /\ exists t0 v, t = t0 ++ [Rd TWCR v] /\ Z.land v (1 ≪ TWINT) <> 0.
Proof.
  revert s t. induction fuel as [|n IH]; intros s t; simpl; [discriminate|].
  unfold bind. rewrite reg_read_eq.
  set (v := u8 (reg_load TWCR s).1). set (s1 := (reg_load TWCR s).2).
  destruct (Z.eqb_spec (Z.land v (1 ≪ TWINT)) 0) as [Hz|Hnz].
  - destruct (wait_TWINT n s1) as [a' t' s2| |] eqn:Hw; try discriminate.
    intros [= ? <- ?]; subst. destruct (IH _ _ Hw) as [Hp (t0 & w & -> & Hw')].
    split.
    + constructor; [now exists v | exact Hp].
    + now exists (Rd TWCR v :: t0), w.
  - unfold ret. intros [= ? <- ?]; subst. split.
    + constructor; [now exists v | constructor].
    + now exists [], v.
Qed.

(** More fuel does not change a wait that returned. *)
Lemma wait_TWINT_mono fuel fuel' (s : dev) a t s' :
  (fuel <= fuel')%nat ->
  wait_TWINT fuel s = Ret a t s' -> wait_TWINT fuel' s = Ret a t s'.
Proof.
  revert fuel' s t. induction fuel as [|n IH]; intros fuel' s t Hle;
    simpl; [discriminate|].
  destruct fuel' as [|n']; [lia|]. simpl.
  unfold bind. rewrite reg_read_eq.
  destruct (Z.land _ _ =? 0); [|auto].
  destruct (wait_TWINT n _) as [a' t' s2| |] eqn:Hw; try discriminate.
  intros [= ? <- ?]; subst. erewrite IH; eauto. lia.
Qed.

(** On a device whose flag never comes up no amount of fuel is enough. *)
Lemma wait_TWINT_never fuel (s : dev) :
  never_ready dev -> wait_TWINT fuel s = Spin.
Proof.
  intros Hnr. revert s. induction fuel as [|n IH]; intros s; simpl; auto.
  unfold bind. rewrite reg_read_eq, Hnr. simpl. now rewrite IH.
Qed.

Lemma wait_TWINT_responsive bound fuel (s : dev) :
  responsive dev bound -> (bound <= fuel)%nat ->
  exists t s', wait_TWINT fuel s = Ret tt t s'.
Proof.
  intros Hr Hle. destruct (Hr s) as (t & s' & Hw).
  exists t, s'. eapply wait_TWINT_mono; eauto.
Qed.

End Wait.

(** ** Rules for [does] *)

Section Rules.
Context {dev : Type} `{!Twi dev}.

Lemma does_ret {A} (a : A) (s : dev) (Q : A -> list prim -> list Z -> Prop) :
  Q a [] [] -> does (ret a) s Q.
Proof.
  intros HQ. exists a, [], s. split; [reflexivity|].
  exists []. split; [apply framed_nil | exact HQ].
Qed.

Lemma does_bind {A B} (m : M dev A) (f : A -> M dev B) (s : dev)
    (Q1 : A -> list prim -> list Z -> Prop)
    (Q : B -> list prim -> list Z -> Prop) :
  does m s Q1 ->
  (forall a o1 r1 s1, Q1 a o1 r1 ->
     does (f a) s1 (fun b o2 r2 => Q b (o1 ++ o2) (r1 ++ r2))) ->
  does (bind m f) s Q.
Proof.
  intros (a & t1 & s1 & Hm & o1 & Hf1 & HQ1) Hk.
  destruct (Hk a o1 _ s1 HQ1) as (b & t2 & s2 & Hf & o2 & Hf2 & HQ).
  exists b, (t1 ++ t2), s2. split; [eapply bind_Ret; eauto|].
  exists (o1 ++ o2). split; [now apply framed_app|].
  now rewrite data_reads_app.
Qed.

Lemma does_weaken {A} (m : M dev A) (s : dev)
    (Q Q' : A -> list prim -> list Z -> Prop) :
  does m s Q -> (forall a o r, Q a o r -> Q' a o r) -> does m s Q'.
Proof.
  intros (a & t & s' & Hm & o & Hf & HQ) Himp.
  exists a, t, s'. split; [exact Hm|]. exists o. auto.
Qed.

End Rules.

(** ** The primitive operations on a responsive device *)

Section Primitives.
Context {dev : Type} `{!Twi dev}.
Variables (bound fuel : nat).
Hypothesis Hresp : responsive dev bound.
Hypothesis Hfuel : (bound <= fuel)%nat.

Lemma i2c_stop_eq (s : dev) :
  i2c_stop s = Ret tt [Wr TWCR CW_STOP] (reg_store TWCR CW_STOP s).
Proof. reflexivity. Qed.

Lemma does_i2c_stop (s : dev) :
  does i2c_stop s (fun _ ops rx => ops = [Stop] /\ rx = []).
Proof.
  exists tt, [Wr TWCR CW_STOP], (reg_store TWCR CW_STOP s).
  split; [reflexivity|]. exists [Stop]. split; [|auto].
  intros rest. reflexivity.
Qed.

Lemma i2c_start_eq (s : dev) :
  exists t s',
    i2c_start fuel s = Ret tt (Wr TWCR CW_START :: t) s' /\ polls t.
Proof.
  destruct (wait_TWINT_responsive bound fuel (reg_store TWCR CW_START s)
              Hresp Hfuel) as (t & s' & Hw).
  exists t, s'. split.
  - unfold i2c_start. erewrite bind_Ret; [|reflexivity|exact Hw]. reflexivity.
  - now apply wait_TWINT_trace in Hw.
Qed.

Lemma does_i2c_start (s : dev) :
  does (i2c_start fuel) s (fun _ ops rx => ops = [Start] /\ rx = []).
Proof.
  destruct (i2c_start_eq s) as (t & s' & Heq & Hp).
  exists tt, (Wr TWCR CW_START :: t), s'. split; [exact Heq|].
  exists [Start]. split.
  - intros rest. change (Start :: decode None (t ++ rest) = [Start] ++ decode None rest).
    now rewrite decode_polls.
  - split; [reflexivity|]. simpl. now apply data_reads_polls.
Qed.

(** [i2c_write] spelled out: the two stores, the polls, the load of the
    status register and the test of its upper five bits. *)
Lemma i2c_write_eq (Data : Z) (s : dev) :
  exists t sr s',
    i2c_write fuel Data s
    = Ret (if bool_decide (Z.land sr 0xF8 ∈ ack_codes) then 1 else 0)
          (Wr TWDR (u8 Data) :: Wr TWCR CW_XFER :: t ++ [Rd TWSR sr]) s'
    /\ polls t /\ 0 <= sr < 256.
Proof.
  set (s1 := reg_store TWCR CW_XFER (reg_store TWDR (u8 Data) s)).
  destruct (wait_TWINT_responsive bound fuel s1 Hresp Hfuel) as (t & s2 & Hw).
  exists t, (u8 (reg_load TWSR s2).1), (reg_load TWSR s2).2.
  split; [|split; [now apply wait_TWINT_trace in Hw | apply u8_range]].
  unfold i2c_write, bind, reg_write.
  change (u8 (Z.lor (1 ≪ TWINT) (1 ≪ TWEN))) with CW_XFER.
  fold s1. rewrite Hw, reg_read_eq.
  set (st := Z.land (u8 (reg_load TWSR s2).1) 0xF8).
  assert (Hst : (negb (st =? 0x18) && negb (st =? 0x28)
                 && negb (st =? 0x40) && negb (st =? 0x50))
                = negb (bool_decide (st ∈ ack_codes))).
  { unfold ack_codes.
    destruct (Z.eqb_spec st 0x18) as [->|H1]; [reflexivity|].
    destruct (Z.eqb_spec st 0x28) as [->|H2]; [reflexivity|].
    destruct (Z.eqb_spec st 0x40) as [->|H3]; [reflexivity|].
    destruct (Z.eqb_spec st 0x50) as [->|H4]; [reflexivity|].
    simpl. rewrite bool_decide_eq_false_2; [reflexivity|].
    rewrite !elem_of_cons, elem_of_nil. intuition. }
  rewrite Hst. destruct (bool_decide (st ∈ ack_codes)); reflexivity.
Qed.

Lemma does_i2c_write (Data : Z) (s : dev) :
  does (i2c_write fuel Data) s
    (fun r ops rx => ops = [Write (u8 Data)] /\ rx = [] /\ (r = 0 \/ r = 1)).
Proof.
  destruct (i2c_write_eq Data s) as (t & sr & s' & Heq & Hp & _).
  eexists _, _, s'. split; [exact Heq|].
  exists [Write (u8 Data)]. split; [|split; [reflexivity|split]].
  - intros rest.
    change (Write (u8 Data) :: decode None ((t ++ [Rd TWSR sr]) ++ rest)
            = [Write (u8 Data)] ++ decode None rest).
    now rewrite <- app_assoc, decode_polls.
  - simpl. rewrite data_reads_app, data_reads_polls by exact Hp. reflexivity.
  - destruct (bool_decide _); auto.
Qed.

Lemma i2c_read_ack_eq (s : dev) :
  exists t v s',
    i2c_read_ack fuel s = Ret v (Wr TWCR CW_XFER_ACK :: t ++ [Rd TWDR v]) s'
    /\ polls t /\ 0 <= v < 256.
Proof.
  destruct (wait_TWINT_responsive bound fuel (reg_store TWCR CW_XFER_ACK s)
              Hresp Hfuel) as (t & s2 & Hw).
  exists t, (u8 (reg_load TWDR s2).1), (reg_load TWDR s2).2.
  split; [|split; [now apply wait_TWINT_trace in Hw | apply u8_range]].
  unfold i2c_read_ack.
  erewrite bind_Ret; [|reflexivity|].
  2:{ erewrite bind_Ret; [|exact Hw|apply reg_read_eq]. reflexivity. }
  reflexivity.
Qed.

Lemma i2c_read_no_ack_eq (s : dev) :
  exists t v s',
    i2c_read_no_ack fuel s = Ret v (Wr TWCR CW_XFER :: t ++ [Rd TWDR v]) s'
    /\ polls t /\ 0 <= v < 256.
Proof.
  destruct (wait_TWINT_responsive bound fuel (reg_store TWCR CW_XFER s)
              Hresp Hfuel) as (t & s2 & Hw).
  exists t, (u8 (reg_load TWDR s2).1), (reg_load TWDR s2).2.
  split; [|split; [now apply wait_TWINT_trace in Hw | apply u8_range]].
  unfold i2c_read_no_ack.
  erewrite bind_Ret; [|reflexivity|].
  2:{ erewrite bind_Ret; [|exact Hw|apply reg_read_eq]. reflexivity. }
  reflexivity.
Qed.

Lemma does_i2c_read_ack (s : dev) :
  does (i2c_read_ack fuel) s
    (fun v ops rx => ops = [ReadAck] /\ rx = [v] /\ 0 <= v < 256).
Proof.
  destruct (i2c_read_ack_eq s) as (t & v & s' & Heq & Hp & Hv).
  eexists _, _, s'. split; [exact Heq|].
  exists [ReadAck]. split; [|split; [reflexivity|split; [|exact Hv]]].
  - intros rest.
    change (ReadAck :: decode None ((t ++ [Rd TWDR v]) ++ rest)
            = [ReadAck] ++ decode None rest).
    now rewrite <- app_assoc, decode_polls.
  - simpl. rewrite data_reads_app, data_reads_polls by exact Hp. reflexivity.
Qed.

Lemma does_i2c_read_no_ack (s : dev) :
  does (i2c_read_no_ack fuel) s
    (fun v ops rx => ops = [ReadNoAck] /\ rx = [v] /\ 0 <= v < 256).
Proof.
  destruct (i2c_read_no_ack_eq s) as (t & v & s' & Heq & Hp & Hv).
  eexists _, _, s'. split; [exact Heq|].
  exists [ReadNoAck]. split; [|split; [reflexivity|split; [|exact Hv]]].
  - intros rest.
    change (ReadNoAck :: decode None ((t ++ [Rd TWDR v]) ++ rest)
            = [ReadNoAck] ++ decode None rest).
    now rewrite <- app_assoc, decode_polls.
  - simpl. rewrite data_reads_app, data_reads_polls by exact Hp. reflexivity.
Qed.

End Primitives.

(** ** The composed transactions on a responsive device *)

Section Composed.
Context {dev : Type} `{!Twi dev}.
Variables (bound fuel : nat).
Hypothesis Hresp : responsive dev bound.
Hypothesis Hfuel : (bound <= fuel)%nat.

Local Ltac prim_step lem :=
  eapply does_bind; [eapply lem; eassumption|]; cbv beta.

Lemma does_i2c_writeByte (Slave_Address Data : Z) (s : dev) :
  does (i2c_writeByte fuel Slave_Address Data) s
    (fun _ ops rx =>
       ops = [Start; Write (u8 (Slave_Address ≪ 1)); Write (u8 Data); Stop]
       /\ rx = []).
Proof.
  unfold i2c_writeByte.
  prim_step does_i2c_start. intros _ ? ? s1 [-> ->].
  prim_step does_i2c_write. intros _ ? ? s2 (-> & -> & _).
  prim_step does_i2c_write. intros _ ? ? s3 (-> & -> & _).
  eapply does_weaken; [apply does_i2c_stop|].
  intros _ ? ? [-> ->]. simpl. now rewrite u8_idem.
Qed.

Lemma does_i2c_readByte (Slave_Address : Z) (s : dev) :
  does (i2c_readByte fuel Slave_Address) s
    (fun v ops rx =>
       ops = [Start; Write (u8 (Z.lor (Slave_Address ≪ 1) 1)); ReadNoAck; Stop]
       /\ rx = [v]).
Proof.
  unfold i2c_readByte.
  prim_step does_i2c_start. intros _ ? ? s1 [-> ->].
  prim_step does_i2c_write. intros _ ? ? s2 (-> & -> & _).
  prim_step does_i2c_read_no_ack. intros v ? ? s3 (-> & -> & _).
  prim_step does_i2c_stop. intros _ ? ? s4 [-> ->].
  apply does_ret. simpl. now rewrite u8_idem.
Qed.

(** The loop of [i2c_pagewrite] on a terminated string: either every
    byte before the terminator was sent and the loop ended, or the loop
    body returned 0 after sending some of them. *)
Lemma does_pagewrite_loop (str : list Z) (s : dev) :
  0 ∈ str ->
  does (pagewrite_loop fuel str) s
    (fun r ops rx =>
       rx = [] /\
       ((r = None /\ ops = Write <$> (u8 <$> payload str))
        \/ (r = Some 0 /\ exists k, (k < length (payload str))%nat
            /\ ops = Write <$> (u8 <$> take (S k) (payload str))))).
Proof.
  intros Hin. revert s. induction str as [|c str IH]; intros s.
  - now apply elem_of_nil in Hin.
  - simpl. destruct (Z.eqb_spec c 0) as [->|Hc].
    + apply does_ret. auto.
    + apply elem_of_cons in Hin as [Hin|Hin]; [congruence|].
      prim_step does_i2c_write. intros ack ? ? s1 (-> & -> & Hack).
      destruct Hack as [-> | ->]; simpl.
      * apply does_ret. split; [reflexivity|]. right. split; [reflexivity|].
        exists 0%nat. split; [lia|]. simpl. now rewrite u8_idem.
      * eapply does_weaken; [apply (IH Hin)|].
        intros r ops rx (-> & Hr). split; [reflexivity|].
        rewrite u8_idem.
        destruct Hr as [[-> ->] | (-> & k & Hk & ->)].
        -- now left.
        -- right. split; [reflexivity|]. exists (S k). split; [lia|].
           reflexivity.
Qed.

Lemma does_i2c_pagewrite (Slave_Address : Z) (str : list Z) (s : dev) :
  0 ∈ str ->
  does (i2c_pagewrite fuel Slave_Address str) s
    (fun r ops rx =>
       rx = [] /\
       ((r = 1 /\
         ops = [Start; Write (u8 (Slave_Address ≪ 1))]
               ++ (Write <$> (u8 <$> payload str)) ++ [Stop])
        \/ (r = 0 /\ exists k, (k < length (payload str))%nat
            /\ ops = [Start; Write (u8 (Slave_Address ≪ 1))]
                     ++ (Write <$> (u8 <$> take (S k) (payload str)))))).
Proof.
  intros Hin. unfold i2c_pagewrite.
  prim_step does_i2c_start. intros _ ? ? s1 [-> ->].
  prim_step does_i2c_write. intros _ ? ? s2 (-> & -> & _).
  eapply does_bind; [apply (does_pagewrite_loop _ _ Hin)|]. cbv beta.
  rewrite u8_idem.
  intros r ? ? s3 (-> & [[-> ->] | (-> & k & Hk & ->)]).
  - prim_step does_i2c_stop. intros _ ? ? s4 [-> ->].
    apply does_ret. split; [reflexivity|]. left. split; [reflexivity|].
    simpl. now rewrite ?app_nil_r.
  - apply does_ret. split; [reflexivity|]. right. split; [reflexivity|].
    exists k. split; [exact Hk|]. simpl. now rewrite ?app_nil_r.
Qed.

End Composed.

(** ** Page read on a responsive device *)

Section PageRead.
Context {dev : Type} `{!Twi dev}.
Variables (bound fuel : nat).
Hypothesis Hresp : responsive dev bound.
Hypothesis Hfuel : (bound <= fuel)%nat.

Lemma does_buf_store (buffer : list Z) (i c : Z) (s : dev) :
  0 <= i < Z.of_nat (length buffer) ->
  does (buf_store buffer i c) s
    (fun b ops rx => b = <[Z.to_nat i := u8 c]> buffer /\ ops = [] /\ rx = []).
Proof.
  intros Hi. unfold buf_store.
  replace ((0 <=? i) && (i <? Z.of_nat (length buffer))) with true
    by (symmetry; apply andb_true_intro; split; [apply Z.leb_le|apply Z.ltb_lt]; lia).
  now apply does_ret.
Qed.

(** The loop entered with counter [i]: it runs [length - i] times, reads
    with acknowledgment except in the iteration with [i = length - 1],
    and stores the bytes received into the cells [i .. length - 1]. *)
Lemma does_pageread_loop (n : nat) (i len : Z) (buffer : list Z) (s : dev) :
  0 <= i <= len -> len <= 255 -> len <= Z.of_nat (length buffer) ->
  (Z.to_nat (len - i) <= n)%nat ->
  does (pageread_loop fuel n i len buffer) s
    (fun b ops rx =>
       length rx = Z.to_nat (len - i)
       /\ ops = (if i <? len
                 then replicate (Z.to_nat (len - i) - 1) ReadAck ++ [ReadNoAck]
                 else [])
       /\ b = take (Z.to_nat i) buffer ++ rx ++ drop (Z.to_nat len) buffer).
Proof.
  revert i buffer s. induction n as [|n IH]; intros i buffer s Hi Hlen Hbuf Hn.
  - simpl. destruct (Z.ltb_spec i len) as [Hlt|Hge]; [lia|].
    apply does_ret. replace i with len by lia.
    rewrite Z.sub_diag. split; [reflexivity|]. split; [reflexivity|].
    simpl. now rewrite take_drop.
  - simpl. destruct (Z.ltb_spec i len) as [Hlt|Hge].
    + eapply does_bind with
        (Q1 := fun v ops rx =>
                 ops = [if i =? len - 1 then ReadNoAck else ReadAck]
                 /\ rx = [v] /\ 0 <= v < 256).
      { destruct (i =? len - 1);
          [eapply does_i2c_read_no_ack | eapply does_i2c_read_ack]; eassumption. }
      intros c ? ? s1 (-> & -> & Hc).
      eapply does_bind; [apply does_buf_store; lia|]. cbv beta.
      intros b1 ? ? s2 (-> & -> & ->).
      rewrite (u8_small c Hc), (u8_small (i + 1)) by lia.
      eapply does_weaken.
      { apply IH; [lia|lia|rewrite length_insert; lia|lia]. }
      intros b ops rx (Hrx & -> & ->). split; [|split].
      * simpl. rewrite Hrx. lia.
      * simpl. destruct (Z.eqb_spec i (len - 1)) as [->|Hne].
        -- destruct (Z.ltb_spec (len - 1 + 1) len); [lia|].
           replace (Z.to_nat (len - (len - 1)) - 1)%nat with 0%nat by lia.
           reflexivity.
        -- destruct (Z.ltb_spec (i + 1) len); [|lia].
           replace (Z.to_nat (len - i) - 1)%nat
             with (S (Z.to_nat (len - (i + 1)) - 1)) by lia.
           reflexivity.
      * simpl.
        replace (Z.to_nat (i + 1)) with (S (Z.to_nat i)) by lia.
        rewrite (take_S_r _ _ c)
          by (apply list_lookup_insert_eq; lia).
        rewrite take_insert_ge by lia.
        rewrite drop_insert_lt by lia.
        now rewrite <- app_assoc.
    + apply does_ret. replace i with len by lia.
      rewrite Z.sub_diag. split; [reflexivity|]. split; [reflexivity|].
      simpl. now rewrite take_drop.
Qed.

(** The whole of [i2c_pageread] for a buffer of at least [length]
    cells. *)
Lemma does_i2c_pageread (Slave_Address : Z) (buffer : list Z) (len : Z)
    (s : dev) :
  0 <= len <= 255 -> len <= Z.of_nat (length buffer) ->
  does (i2c_pageread fuel Slave_Address buffer len) s
    (fun b ops rx =>
       length rx = Z.to_nat len
       /\ ops = [Start; Write (u8 (Z.lor (Slave_Address ≪ 1) 1))]
                ++ (if 0 <? len
                    then replicate (Z.to_nat len - 1) ReadAck ++ [ReadNoAck]
                    else [])
                ++ [Stop]
       /\ b = (if 0 <? len
               then take (Z.to_nat len - 1) rx ++ 0 :: drop (Z.to_nat len) buffer
               else buffer)).
Proof.
  intros Hlen Hbuf. unfold i2c_pageread.
  eapply does_bind; [eapply does_i2c_start; eassumption|]. cbv beta.
  intros _ ? ? s1 [-> ->].
  eapply does_bind; [eapply does_i2c_write; eassumption|]. cbv beta.
  intros _ ? ? s2 (-> & -> & _).
  eapply does_bind.
  { apply (does_pageread_loop 256 0 len buffer); lia. }
  cbv beta. rewrite Z.sub_0_r, take_0, u8_idem.
  intros b1 ? rx s3 (Hrx & -> & ->).
  destruct (Z.ltb_spec 0 len) as [Hpos|Hzero].
  - replace (len >? 0) with true by (symmetry; apply Z.gtb_lt; lia).
    eapply does_bind.
    { apply does_buf_store. simpl. rewrite length_app, length_drop. lia. }
    cbv beta. intros b2 ? ? s4 (-> & -> & ->).
    eapply does_bind; [apply does_i2c_stop|]. cbv beta.
    intros _ ? ? s5 [-> ->].
    apply does_ret. rewrite !app_nil_r. split; [exact Hrx|].
    split; [now rewrite <- !app_assoc|].
    simpl.
    replace (Z.to_nat (len - 1)) with (length (take (Z.to_nat len - 1) rx) + 0)%nat
      by (rewrite length_take; lia).
    rewrite <- (take_drop (Z.to_nat len - 1) rx) at 2.
    rewrite <- app_assoc, insert_app_r.
    f_equal.
    assert (Hd : length (drop (Z.to_nat len - 1) rx) = 1%nat)
      by (rewrite length_drop; lia).
    destruct (drop (Z.to_nat len - 1) rx) as [|x [|y l]]; simpl in Hd;
      try discriminate.
    reflexivity.
  - assert (len = 0) as -> by lia.
    change (0 >? 0) with false. cbv iota.
    destruct rx; [|discriminate].
    eapply does_bind with (Q1 := fun b o r => b = buffer /\ o = [] /\ r = []).
    { apply does_ret. simpl. auto. }
    intros b2 ? ? s4 (-> & -> & ->).
    eapply does_bind; [apply does_i2c_stop|]. cbv beta.
    intros _ ? ? s5 [-> ->].
    apply does_ret. simpl. auto.
Qed.

End PageRead.

(** ** The two devices *)

Lemma replay_responsive : responsive replay 2.
Proof. intros [[|] l]; eexists _, _; reflexivity. Qed.

Lemma stuck_never_ready : never_ready stuck.
Proof. intros s. reflexivity. Qed.

(** ** Waiting primitives *)

(** A primitive that stores a control word and then waits has, whenever
    it returns, loaded TWCR with the ready flag set. *)
Lemma waited_trace {dev : Type} `{!Twi dev} {A B} (pre : M dev A)
    (post : M dev B) fuel (s : dev) b t s' :
  (bind pre (fun _ => bind (wait_TWINT fuel) (fun _ => post))) s = Ret b t s' ->
  exists v, Rd TWCR v ∈ t /\ Z.land v (1 ≪ TWINT) <> 0.
Proof.
  intros H.
  apply bind_Ret_inv in H as (a & t1 & s1 & t2 & _ & H & ->).
  apply bind_Ret_inv in H as ([] & t3 & s3 & t4 & Hw & _ & ->).
  apply wait_TWINT_trace in Hw as (_ & t0 & v & -> & Hv).
  exists v. split; [|exact Hv].
  rewrite !elem_of_app, list_elem_of_singleton. auto.
Qed.

(** ** Start and stop conditions of the composed transactions *)

Lemma count_op_fmap_Write (p : prim) (l : list Z) :
  (forall b, Write b <> p) -> count_op p (Write <$> l) = 0%nat.
Proof.
  intros Hne. unfold count_op. induction l as [|b l IH]; simpl; auto.
  rewrite filter_cons_False; auto.
Qed.

Section StopCount.
Context {dev : Type} `{!Twi dev}.
Variables (bound fuel : nat).
Hypothesis Hresp : responsive dev bound.
Hypothesis Hfuel : (bound <= fuel)%nat.

(** [i2c_writeByte] frames its transfer with one start and one stop. *)
Lemma i2c_writeByte_one_stop (Slave_Address Data : Z) (s : dev) :
  exists t s',
    i2c_writeByte fuel Slave_Address Data s = Ret tt t s'
    /\ count_op Start (bus_ops t) = 1%nat
    /\ count_op Stop (bus_ops t) = 1%nat.
Proof.
  destruct (does_i2c_writeByte bound fuel Hresp Hfuel Slave_Address Data s)
    as ([] & t & s' & Heq & ops & Hfr & -> & _).
  exists t, s'. rewrite (framed_bus_ops _ _ Hfr). auto.
Qed.

(** So does [i2c_readByte]. *)
Lemma i2c_readByte_one_stop (Slave_Address : Z) (s : dev) :
  exists v t s',
    i2c_readByte fuel Slave_Address s = Ret v t s'
    /\ count_op Start (bus_ops t) = 1%nat
    /\ count_op Stop (bus_ops t) = 1%nat.
Proof.
  destruct (does_i2c_readByte bound fuel Hresp Hfuel Slave_Address s)
    as (v & t & s' & Heq & ops & Hfr & -> & _).
  exists v, t, s'. rewrite (framed_bus_ops _ _ Hfr). auto.
Qed.

(** So does [i2c_pageread], for every length. *)
Lemma i2c_pageread_one_stop (Slave_Address : Z) (buffer : list Z) (len : Z)
    (s : dev) :
  0 <= len <= 255 -> len <= Z.of_nat (length buffer) ->
  exists b t s',
    i2c_pageread fuel Slave_Address buffer len s = Ret b t s'
    /\ count_op Start (bus_ops t) = 1%nat
    /\ count_op Stop (bus_ops t) = 1%nat.
Proof.
  intros Hlen Hbuf.
  destruct (does_i2c_pageread bound fuel Hresp Hfuel Slave_Address buffer len s
              Hlen Hbuf)
    as (b & t & s' & Heq & ops & Hfr & _ & -> & _).
  exists b, t, s'. rewrite (framed_bus_ops _ _ Hfr). split; [exact Heq|].
  rewrite !count_op_app.
  destruct (0 <? len); rewrite ?count_op_app, ?count_op_replicate_ne by done;
    auto.
Qed.

(** [i2c_pagewrite] issues its stop only when it returns 1: the
    [return 0] inside the loop leaves the function before [i2c_stop]. *)
Lemma i2c_pagewrite_stop_count (Slave_Address : Z) (str : list Z) (s : dev) :
  0 ∈ str ->
  exists r t s',
    i2c_pagewrite fuel Slave_Address str s = Ret r t s'
    /\ (r = 0 \/ r = 1)
    /\ count_op Start (bus_ops t) = 1%nat
    /\ count_op Stop (bus_ops t) = if r =? 0 then 0%nat else 1%nat.
Proof.
  intros Hin.
  destruct (does_i2c_pagewrite bound fuel Hresp Hfuel Slave_Address str s Hin)
    as (r & t & s' & Heq & ops & Hfr & _ & Hcases).
  exists r, t, s'. rewrite (framed_bus_ops _ _ Hfr). split; [exact Heq|].
  destruct Hcases as [[-> ->] | (-> & k & _ & ->)];
    rewrite !count_op_app, !count_op_fmap_Write by done; auto.
Qed.

End StopCount.

(** ** The bit-rate divisor *)

(** For 16 .. 65 kHz the product [freq * 1000] fits [unsigned int] and the
    divisor fits TWBR: the register receives the value of the formula. *)
Lemma i2c_init_divisor_exact (dev : Type) `{!Twi dev} (freq : Z) (s : dev) :
  16 <= freq <= 65 ->
  exists s',
    i2c_init freq s
    = Ret tt [Wr TWSR 0; Wr TWBR ((F_CPU / (freq * 1000) - 16) / 2); Wr TWCR 4] s'.
Proof.
  intros Hf. unfold i2c_init, F_CPU.
  assert (Hk : u16 (freq * 1000) = freq * 1000)
    by (unfold u16; apply Z.mod_small; lia).
  rewrite Hk.
  destruct (Z.eqb_spec (freq * 1000) 0) as [|_]; [lia|].
  assert (Hq : 123 <= 8000000 / (freq * 1000) <= 500).
  { split; [apply Z.div_le_lower_bound | apply Z.div_le_upper_bound]; lia. }
  set (q := 8000000 / (freq * 1000)) in *.
  assert (H32 : u32 (q - 16) = q - 16) by (unfold u32; apply Z.mod_small; lia).
  assert (H8 : u8 ((q - 16) / 2) = (q - 16) / 2).
  { apply u8_small. split; [apply Z.div_pos; lia|].
    apply Z.div_lt_upper_bound; lia. }
  unfold bind, reg_write. rewrite H32, H8. eexists. reflexivity.
Qed.

(** ** What [i2c_pagewrite] makes of the acknowledgments *)

Lemma status_reads_app t1 t2 :
  status_reads (t1 ++ t2) = status_reads t1 ++ status_reads t2.
Proof.
  induction t1 as [|[r v|r v] t1 IH]; simpl; auto.
  destruct r; simpl; auto. now rewrite IH.
Qed.

Lemma status_reads_polls t : polls t -> status_reads t = [].
Proof. induction 1 as [|e t [v ->] _ IH]; simpl; auto. Qed.

Section Acks.
Context {dev : Type} `{!Twi dev}.
Variables (bound fuel : nat).
Hypothesis Hresp : responsive dev bound.
Hypothesis Hfuel : (bound <= fuel)%nat.

(** One [i2c_write] loads one status and answers whether it is an
    acknowledgment. *)
Lemma i2c_write_acked (Data : Z) (s : dev) :
  exists r t sr s',
    i2c_write fuel Data s = Ret r t s'
    /\ status_reads t = [sr]
    /\ (acked sr /\ r = 1 \/ ~ acked sr /\ r = 0).
Proof.
  destruct (i2c_write_eq bound fuel Hresp Hfuel Data s)
    as (t & sr & s' & Heq & Hp & _).
  eexists _, _, sr, s'. split; [exact Heq|]. split.
  - simpl. now rewrite status_reads_app, status_reads_polls.
  - unfold acked. destruct (bool_decide_reflect (Z.land sr 0xF8 ∈ ack_codes)); auto.
Qed.

(** The loop ends normally when every data byte was acknowledged and
    returns 0 at the first one that was not. *)
Lemma pagewrite_loop_acks (str : list Z) (s : dev) :
  0 ∈ str ->
  exists r t s',
    pagewrite_loop fuel str s = Ret r t s'
    /\ ((r = None /\ Forall acked (status_reads t)
         /\ length (status_reads t) = length (payload str))
        \/ (r = Some 0 /\ exists pre sr,
              status_reads t = pre ++ [sr] /\ Forall acked pre /\ ~ acked sr
              /\ (length pre < length (payload str))%nat)).
Proof.
  intros Hin. revert s. induction str as [|c str IH]; intros s.
  - now apply elem_of_nil in Hin.
  - simpl. destruct (Z.eqb_spec c 0) as [->|Hc].
    + exists None, [], s. split; [reflexivity|]. left. simpl. auto.
    + apply elem_of_cons in Hin as [Hin|Hin]; [congruence|].
      destruct (i2c_write_acked (u8 c) s)
        as (r1 & t1 & sr & s1 & Hw & Hst & [[Hack ->] | [Hnack ->]]).
      * destruct (IH Hin s1) as (r & t2 & s2 & Hl & Hcases).
        exists r, (t1 ++ t2), s2. split.
        { eapply bind_Ret; [exact Hw|exact Hl]. }
        rewrite status_reads_app, Hst.
        destruct Hcases as [(-> & Hall & Hlen) | (-> & pre & sr' & Heq & Hpre & Hsr & Hlen)].
        -- left. split; [reflexivity|]. split; [now constructor|].
           simpl. now rewrite Hlen.
        -- right. split; [reflexivity|]. exists (sr :: pre), sr'.
           rewrite Heq. split; [reflexivity|]. split; [now constructor|].
           split; [exact Hsr|]. simpl. lia.
      * exists (Some 0), (t1 ++ []), s1. split.
        { eapply bind_Ret; [exact Hw|reflexivity]. }
        right. split; [reflexivity|]. exists [], sr.
        rewrite app_nil_r, Hst. split; [reflexivity|]. split; [constructor|].
        split; [exact Hnack|]. simpl. lia.
Qed.

(** [i2c_pagewrite] returns 1 exactly when every data byte was
    acknowledged; the status [sr0] met by the address byte plays no part. *)
Lemma i2c_pagewrite_result (Slave_Address : Z) (str : list Z) (s : dev) :
  0 ∈ str ->
  exists r t s' sr0 srs,
    i2c_pagewrite fuel Slave_Address str s = Ret r t s'
    /\ status_reads t = sr0 :: srs
    /\ ((r = 1 /\ Forall acked srs /\ length srs = length (payload str))
        \/ (r = 0 /\ exists pre sr,
              srs = pre ++ [sr] /\ Forall acked pre /\ ~ acked sr
              /\ (length pre < length (payload str))%nat)).
Proof.
  intros Hin. unfold i2c_pagewrite.
  destruct (i2c_start_eq bound fuel Hresp Hfuel s) as (t0 & s0 & Hs & Hp0).
  destruct (i2c_write_acked (u8 (Slave_Address ≪ 1)) s0)
    as (r1 & t1 & sr0 & s1 & Hw & Hst & _).
  destruct (pagewrite_loop_acks str s1 Hin) as (r & t2 & s2 & Hl & Hcases).
  destruct Hcases as [(-> & Hall & Hlen) | (-> & pre & sr & Heq & Hpre & Hsr & Hlen)].
  - eexists 1, _, _, sr0, (status_reads t2). split.
    { eapply bind_Ret; [exact Hs|]. eapply bind_Ret; [exact Hw|].
      eapply bind_Ret; [exact Hl|]. eapply bind_Ret; reflexivity. }
    split; [|left; auto].
    simpl. rewrite !status_reads_app, Hst, (status_reads_polls _ Hp0).
    simpl. now rewrite app_nil_r.
  - eexists 0, _, _, sr0, (status_reads t2). split.
    { eapply bind_Ret; [exact Hs|]. eapply bind_Ret; [exact Hw|].
      eapply bind_Ret; [exact Hl|]. reflexivity. }
    split; [|right; split; [reflexivity|]; exists pre, sr; auto].
    simpl. rewrite !status_reads_app, Hst, (status_reads_polls _ Hp0).
    simpl. now rewrite app_nil_r.
Qed.

End Acks.

(** ** The busy-wait against the device *)

Section Polling.
Context {dev : Type} `{!Twi dev}.

Lemma poll_value_S (k : nat) (s : dev) :
  poll_value (S k) s = poll_value k (reg_load TWCR s).2.
Proof. reflexivity. Qed.

Lemma polls_poll_trace (n : nat) (s : dev) : polls (poll_trace n s).
Proof.
  revert s. induction n as [|n IH]; intros s; simpl; constructor; eauto.
  apply IH.
Qed.

(** A wait that returns has loaded the control register up to the first
    load that shows the flag, and nothing else. *)
Lemma wait_TWINT_first_ready fuel (s : dev) a t s' :
  wait_TWINT fuel s = Ret a t s' ->
  exists k, (k < fuel)%nat /\ first_ready k s
            /\ t = poll_trace (S k) s /\ s' = after_polls (S k) s.
Proof.
  revert s t. induction fuel as [|n IH]; intros s t; simpl; [discriminate|].
  unfold bind. rewrite reg_read_eq.
  destruct (Z.eqb_spec (Z.land (u8 (reg_load TWCR s).1) (1 ≪ TWINT)) 0)
    as [Hz|Hnz].
  - destruct (wait_TWINT n (reg_load TWCR s).2) as [a' t' s2| |] eqn:Hw;
      try discriminate.
    intros [= ? <- ?]; subst.
    destruct (IH _ _ Hw) as (k & Hk & [Hclear Hset] & -> & ->).
    exists (S k). split; [lia|]. split; [|split; reflexivity].
    split; [|exact Hset].
    intros [|j] Hj; [exact Hz|]. rewrite poll_value_S. apply Hclear. lia.
  - unfold ret. intros [= ? <- ?]; subst.
    exists 0%nat. split; [lia|]. split; [|split; reflexivity].
    split; [intros j Hj; lia | exact Hnz].
Qed.

(** While the flag stays down the wait uses up any fuel. *)
Lemma wait_TWINT_never_flagged fuel (s : dev) :
  never_flagged_from s -> wait_TWINT fuel s = Spin.
Proof.
  revert s. induction fuel as [|n IH]; intros s Hnf; simpl; auto.
  unfold bind. rewrite reg_read_eq.
  pose proof (Hnf 0%nat) as H0. unfold poll_value in H0. simpl in H0.
  rewrite H0. simpl. rewrite IH; [reflexivity|].
  intros k. rewrite <- poll_value_S. apply Hnf.
Qed.

Variables (bound fuel : nat).
Hypothesis Hresp : responsive dev bound.
Hypothesis Hfuel : (bound <= fuel)%nat.

Lemma wait_TWINT_run (s : dev) :
  exists k, first_ready k s
            /\ wait_TWINT fuel s = Ret tt (poll_trace (S k) s) (after_polls (S k) s).
Proof.
  destruct (wait_TWINT_responsive bound fuel s Hresp Hfuel) as (t & s' & Hw).
  destruct (wait_TWINT_first_ready _ _ _ _ _ Hw) as (k & _ & Hfr & -> & ->).
  now exists k.
Qed.

(** [i2c_start], [i2c_write] and the two reads, written in terms of the
    device alone. *)
Lemma i2c_start_run (s : dev) :
  exists k, first_ready k (reg_store TWCR CW_START s)
    /\ i2c_start fuel s
       = Ret tt (Wr TWCR CW_START :: poll_trace (S k) (reg_store TWCR CW_START s))
           (after_polls (S k) (reg_store TWCR CW_START s)).
Proof.
  destruct (wait_TWINT_run (reg_store TWCR CW_START s)) as (k & Hfr & Hw).
  exists k. split; [exact Hfr|].
  unfold i2c_start. erewrite bind_Ret; [|reflexivity|exact Hw]. reflexivity.
Qed.

Lemma i2c_write_run (Data : Z) (s : dev) :
  exists k,
    first_ready k (reg_store TWCR CW_XFER (reg_store TWDR (u8 Data) s))
    /\ i2c_write fuel Data s
       = Ret (if bool_decide
                   (acked (u8 (reg_load TWSR
                      (after_polls (S k)
                         (reg_store TWCR CW_XFER (reg_store TWDR (u8 Data) s)))).1))
              then 1 else 0)
           (Wr TWDR (u8 Data) :: Wr TWCR CW_XFER
            :: poll_trace (S k) (reg_store TWCR CW_XFER (reg_store TWDR (u8 Data) s))
               ++ [Rd TWSR (u8 (reg_load TWSR
                      (after_polls (S k)
                         (reg_store TWCR CW_XFER (reg_store TWDR (u8 Data) s)))).1)])
           (reg_load TWSR
              (after_polls (S k)
                 (reg_store TWCR CW_XFER (reg_store TWDR (u8 Data) s)))).2.
Proof.
  set (s1 := reg_store TWCR CW_XFER (reg_store TWDR (u8 Data) s)).
  destruct (wait_TWINT_run s1) as (k & Hfr & Hw).
  exists k. split; [exact Hfr|].
  set (s2 := after_polls (S k) s1) in *.
  unfold i2c_write, bind, reg_write.
  change (u8 (Z.lor (1 ≪ TWINT) (1 ≪ TWEN))) with CW_XFER.
  fold s1. rewrite Hw, reg_read_eq. unfold acked.
  set (st := Z.land (u8 (reg_load TWSR s2).1) 0xF8).
  assert (Hst : (negb (st =? 0x18) && negb (st =? 0x28)
                 && negb (st =? 0x40) && negb (st =? 0x50))
                = negb (bool_decide (st ∈ ack_codes))).
  { unfold ack_codes.
    destruct (Z.eqb_spec st 0x18) as [->|H1]; [reflexivity|].
    destruct (Z.eqb_spec st 0x28) as [->|H2]; [reflexivity|].
    destruct (Z.eqb_spec st 0x40) as [->|H3]; [reflexivity|].
    destruct (Z.eqb_spec st 0x50) as [->|H4]; [reflexivity|].
    simpl. rewrite bool_decide_eq_false_2; [reflexivity|].
    rewrite !elem_of_cons, elem_of_nil. intuition. }
  rewrite Hst. destruct (bool_decide (st ∈ ack_codes)); reflexivity.
Qed.

Lemma i2c_read_ack_run (s : dev) :
  exists k,
    first_ready k (reg_store TWCR CW_XFER_ACK s)
    /\ i2c_read_ack fuel s
       = Ret (u8 (reg_load TWDR (after_polls (S k) (reg_store TWCR CW_XFER_ACK s))).1)
           (Wr TWCR CW_XFER_ACK
            :: poll_trace (S k) (reg_store TWCR CW_XFER_ACK s)
               ++ [Rd TWDR (u8 (reg_load TWDR
                      (after_polls (S k) (reg_store TWCR CW_XFER_ACK s))).1)])
           (reg_load TWDR (after_polls (S k) (reg_store TWCR CW_XFER_ACK s))).2.
Proof.
  destruct (wait_TWINT_run (reg_store TWCR CW_XFER_ACK s)) as (k & Hfr & Hw).
  exists k. split; [exact Hfr|].
  unfold i2c_read_ack.
  erewrite bind_Ret; [|reflexivity|].
  2:{ erewrite bind_Ret; [|exact Hw|apply reg_read_eq]. reflexivity. }
  reflexivity.
Qed.

Lemma i2c_read_no_ack_run (s : dev) :
  exists k,
    first_ready k (reg_store TWCR CW_XFER s)
    /\ i2c_read_no_ack fuel s
       = Ret (u8 (reg_load TWDR (after_polls (S k) (reg_store TWCR CW_XFER s))).1)
           (Wr TWCR CW_XFER
            :: poll_trace (S k) (reg_store TWCR CW_XFER s)
               ++ [Rd TWDR (u8 (reg_load TWDR
                      (after_polls (S k) (reg_store TWCR CW_XFER s))).1)])
           (reg_load TWDR (after_polls (S k) (reg_store TWCR CW_XFER s))).2.
Proof.
  destruct (wait_TWINT_run (reg_store TWCR CW_XFER s)) as (k & Hfr & Hw).
  exists k. split; [exact Hfr|].
  unfold i2c_read_no_ack.
  erewrite bind_Ret; [|reflexivity|].
  2:{ erewrite bind_Ret; [|exact Hw|apply reg_read_eq]. reflexivity. }
  reflexivity.
Qed.

End Polling.

(** * The driver against its specification *)

(** C1. Two runs of [i2c_pagewrite 0x10 "A"] on the replay device.  When
    the address byte meets status 0x20 (not acknowledged) and the data
    byte 0x28, the function returns 1.  When the address byte is
    acknowledged and the data byte meets 0x30 (not acknowledged), it
    returns 0 and its last access is the load of that status: no stop
    word is stored. *)
Theorem i2c_pagewrite_ack_contract :
  i2c_pagewrite 2 0x10 [0x41; 0] (Replay false [0x20; 0x28])
  = Ret 1
      [Wr TWCR 0xA4; Rd TWCR 0x04; Rd TWCR 0x84;
       Wr TWDR 0x20; Wr TWCR 0x84; Rd TWCR 0x04; Rd TWCR 0x84; Rd TWSR 0x20;
       Wr TWDR 0x41; Wr TWCR 0x84; Rd TWCR 0x04; Rd TWCR 0x84; Rd TWSR 0x28;
       Wr TWCR 0x94]
      (Replay true [])
  /\ i2c_pagewrite 2 0x10 [0x41; 0] (Replay false [0x18; 0x30])
     = Ret 0
         [Wr TWCR 0xA4; Rd TWCR 0x04; Rd TWCR 0x84;
          Wr TWDR 0x20; Wr TWCR 0x84; Rd TWCR 0x04; Rd TWCR 0x84; Rd TWSR 0x18;
          Wr TWDR 0x41; Wr TWCR 0x84; Rd TWCR 0x04; Rd TWCR 0x84; Rd TWSR 0x30]
         (Replay false []).
Proof. split; reflexivity. Qed.

(** C2. [i2c_pagewrite 0x10 "AB"] on the replay device, the first data
    byte meeting status 0x30 (not acknowledged): the function returns 0
    after start, address byte and one data byte; the trace holds one
    start and no stop. *)
Theorem i2c_pagewrite_started_not_stopped :
  exists t s',
    i2c_pagewrite 2 0x10 [0x41; 0x42; 0] (Replay false [0x18; 0x30])
    = Ret 0 t s'
    /\ bus_ops t = [Start; Write 0x20; Write 0x41]
    /\ count_op Start (bus_ops t) = 1%nat
    /\ count_op Stop (bus_ops t) = 0%nat
    /\ stores_to TWCR t = [CW_START; CW_XFER; CW_XFER].
Proof. eexists _, _. repeat split. Qed.

(** C3. On a device that releases every busy-wait, [i2c_write] stores the
    byte into TWDR, stores the transfer word into TWCR, loads TWCR up to
    the first load that shows the ready flag, and then loads the status
    register once.  With [sr] the byte that this load of TWSR returns,
    whatever the device makes it, the function returns 1 exactly when the
    upper five bits of [sr] are 0x18, 0x28, 0x40 or 0x50; for every other
    status it returns 0, in particular for the not-acknowledged codes
    0x20, 0x30, 0x48, for arbitration lost 0x38 and for bus error 0x00. *)
Theorem i2c_write_status_mapping (dev : Type) `{!Twi dev} (bound fuel : nat)
    (Data : Z) (s : dev) :
  responsive dev bound -> (bound <= fuel)%nat ->
  exists k r s1 s2 sr,
    s1 = reg_store TWCR CW_XFER (reg_store TWDR (u8 Data) s)
    /\ first_ready k s1
    /\ s2 = after_polls (S k) s1
    /\ sr = u8 (reg_load TWSR s2).1
    /\ i2c_write fuel Data s
       = Ret r (Wr TWDR (u8 Data) :: Wr TWCR CW_XFER
                :: poll_trace (S k) s1 ++ [Rd TWSR sr])
           (reg_load TWSR s2).2
    /\ (r = 1 <-> (Z.land sr 0xF8 = 0x18 \/ Z.land sr 0xF8 = 0x28
                   \/ Z.land sr 0xF8 = 0x40 \/ Z.land sr 0xF8 = 0x50))
    /\ (r = 0 <-> ~ (Z.land sr 0xF8 = 0x18 \/ Z.land sr 0xF8 = 0x28
                     \/ Z.land sr 0xF8 = 0x40 \/ Z.land sr 0xF8 = 0x50))
    /\ (Z.land sr 0xF8 ∈ [0x20; 0x30; 0x48; 0x38; 0x00] -> r = 0).
Proof.
  intros Hresp Hfuel.
  destruct (i2c_write_run bound fuel Hresp Hfuel Data s) as (k & Hfr & Heq).
  eexists k, _, _, _, _. split; [reflexivity|]. split; [exact Hfr|].
  split; [reflexivity|]. split; [reflexivity|]. split; [exact Heq|].
  set (sr := u8 _). unfold acked.
  assert (Hcodes : Z.land sr 0xF8 ∈ ack_codes
                   <-> (Z.land sr 0xF8 = 0x18 \/ Z.land sr 0xF8 = 0x28
                        \/ Z.land sr 0xF8 = 0x40 \/ Z.land sr 0xF8 = 0x50)).
  { unfold ack_codes. rewrite !elem_of_cons, elem_of_nil. tauto. }
  rewrite <- Hcodes.
  destruct (bool_decide_reflect (Z.land sr 0xF8 ∈ ack_codes)) as [Hin|Hout].
  - split; [tauto|]. split; [split; [discriminate|tauto]|].
    intros Hbad. exfalso. apply Hcodes in Hin.
    rewrite !elem_of_cons, elem_of_nil in Hbad. lia.
  - split; [split; [discriminate|tauto]|]. split; [tauto|]. reflexivity.
Qed.

Lemma i2c_write_status_mapping_witness :
  exists k r s1 s2 sr,
    s1 = reg_store TWCR CW_XFER (reg_store TWDR (u8 0x41) (Replay false [0x30]))
    /\ first_ready k s1
    /\ s2 = after_polls (S k) s1
    /\ sr = u8 (reg_load TWSR s2).1
    /\ i2c_write 2 0x41 (Replay false [0x30])
       = Ret r (Wr TWDR (u8 0x41) :: Wr TWCR CW_XFER
                :: poll_trace (S k) s1 ++ [Rd TWSR sr])
           (reg_load TWSR s2).2
    /\ (r = 1 <-> (Z.land sr 0xF8 = 0x18 \/ Z.land sr 0xF8 = 0x28
                   \/ Z.land sr 0xF8 = 0x40 \/ Z.land sr 0xF8 = 0x50))
    /\ (r = 0 <-> ~ (Z.land sr 0xF8 = 0x18 \/ Z.land sr 0xF8 = 0x28
                     \/ Z.land sr 0xF8 = 0x40 \/ Z.land sr 0xF8 = 0x50))
    /\ (Z.land sr 0xF8 ∈ [0x20; 0x30; 0x48; 0x38; 0x00] -> r = 0).
Proof.
  apply (i2c_write_status_mapping replay 2 2 0x41 (Replay false [0x30])).
  - exact replay_responsive.
  - lia.
Defined.

(** C4. With [F_CPU] 8 MHz, [i2c_init(100)] stores 108 into the bit-rate
    register, not the 32 of the formula: [freq * 1000] is computed in 16
    bits, 100000 wraps to 34464, and 8000000 / 34464 = 232. *)
Theorem i2c_init_100kHz_divisor (dev : Type) `{!Twi dev} (s : dev) :
  i2c_init 100 s
  = Ret tt [Wr TWSR 0; Wr TWBR 108; Wr TWCR 4]
      (reg_store TWCR 4 (reg_store TWBR 108 (reg_store TWSR 0 s)))
  /\ u16 (100 * 1000) = 34464
  /\ (F_CPU / u16 (100 * 1000) - 16) / 2 = 108
  /\ (F_CPU / (100 * 1000) - 16) / 2 = 32.
Proof. repeat split. Qed.







(** C8. [i2c_stop] is one store of the stop word into TWCR and nothing
    else: it returns from every state of every device, without loading
    any register.  The four waiting primitives differ: on a device whose
    ready flag never comes up they do not return, whatever the fuel, and
    whenever one of them returns it has loaded TWCR and seen the flag. *)
Theorem i2c_stop_does_not_wait (dev : Type) `{!Twi dev} :
  (forall s : dev,
      i2c_stop s = Ret tt [Wr TWCR CW_STOP] (reg_store TWCR CW_STOP s))
  /\ (never_ready dev ->
      forall (fuel : nat) (Data : Z) (s : dev),
        i2c_start fuel s = Spin /\ i2c_write fuel Data s = Spin
        /\ i2c_read_ack fuel s = Spin /\ i2c_read_no_ack fuel s = Spin)
  /\ (forall (fuel : nat) (Data : Z) (s : dev) t s',
        (i2c_start fuel s = Ret tt t s'
         \/ (exists r, i2c_write fuel Data s = Ret r t s')
         \/ (exists v, i2c_read_ack fuel s = Ret v t s')
         \/ (exists v, i2c_read_no_ack fuel s = Ret v t s')) ->
        exists v, Rd TWCR v ∈ t /\ Z.land v (1 ≪ TWINT) <> 0).
Proof.
  split; [reflexivity|]. split.
  - intros Hnr fuel Data s. repeat split.
    + unfold i2c_start. eapply bind_Ret_Spin; [reflexivity|].
      now apply wait_TWINT_never.
    + unfold i2c_write. eapply bind_Ret_Spin; [reflexivity|].
      eapply bind_Ret_Spin; [reflexivity|].
      apply bind_Spin. now apply wait_TWINT_never.
    + unfold i2c_read_ack. eapply bind_Ret_Spin; [reflexivity|].
      apply bind_Spin. now apply wait_TWINT_never.
    + unfold i2c_read_no_ack. eapply bind_Ret_Spin; [reflexivity|].
      apply bind_Spin. now apply wait_TWINT_never.
  - intros fuel Data s t s' [H | [[r H] | [[v H] | [v H]]]].
    + unfold i2c_start in H.
      apply bind_Ret_inv in H as (a & t1 & s1 & t2 & _ & Hw & ->).
      apply wait_TWINT_trace in Hw as (_ & t0 & v & -> & Hv).
      exists v. split; [|exact Hv].
      rewrite !elem_of_app, list_elem_of_singleton. auto.
    + unfold i2c_write in H.
      apply bind_Ret_inv in H as (a & t1 & s1 & t2 & _ & H & ->).
      apply waited_trace in H as (v & Hin & Hv).
      exists v. split; [|exact Hv]. rewrite elem_of_app. auto.
    + unfold i2c_read_ack in H. now apply waited_trace in H.
    + unfold i2c_read_no_ack in H. now apply waited_trace in H.
Qed.

Lemma i2c_stop_does_not_wait_witness :
  i2c_stop Stuck = Ret tt [Wr TWCR CW_STOP] Stuck
  /\ (forall fuel Data,
        i2c_start fuel Stuck = Spin /\ i2c_write fuel Data Stuck = Spin
        /\ i2c_read_ack fuel Stuck = Spin /\ i2c_read_no_ack fuel Stuck = Spin).
Proof.
  destruct (i2c_stop_does_not_wait stuck) as (Hstop & Hspin & _).
  split; [exact (Hstop Stuck)|].
  intros fuel Data. exact (Hspin stuck_never_ready fuel Data Stuck).
Defined.

(** C9. On a device that releases every busy-wait, after [i2c_pageread]
    with a length N from 1 to 255 and a buffer of at least N cells, the
    cell N-1 of the buffer holds 0, whatever the device sent: N bytes were
    loaded from the data register, the buffer holds the first N-1 of them
    followed by 0, and the byte loaded last (the one read without
    acknowledgment) is in no cell. *)
Theorem i2c_pageread_terminator (dev : Type) `{!Twi dev} (bound fuel : nat)
    (Slave_Address : Z) (buffer : list Z) (N : Z) (s : dev) :
  responsive dev bound -> (bound <= fuel)%nat ->
  1 <= N <= 255 -> N <= Z.of_nat (length buffer) ->
  exists b t s',
    i2c_pageread fuel Slave_Address buffer N s = Ret b t s'
    /\ b !! (Z.to_nat N - 1)%nat = Some 0
    /\ length (data_reads t) = Z.to_nat N
    /\ b = take (Z.to_nat N - 1) (data_reads t)
           ++ 0 :: drop (Z.to_nat N) buffer.
Proof.
  intros Hresp Hfuel HN Hbuf.
  destruct (does_i2c_pageread bound fuel Hresp Hfuel Slave_Address buffer N s)
    as (b & t & s' & Heq & ops & Hfr & Hrx & _ & ->); [lia|lia|].
  replace (0 <? N) with true in * by (symmetry; apply Z.ltb_lt; lia).
  eexists _, t, s'. split; [exact Heq|]. split; [|split; [exact Hrx|reflexivity]].
  rewrite lookup_app_r by (rewrite length_take; lia).
  rewrite length_take.
  replace (Z.to_nat N - 1 - (Z.to_nat N - 1) `min` length (data_reads t))%nat
    with 0%nat by lia.
  reflexivity.
Qed.

Lemma i2c_pageread_terminator_witness :
  exists b t s',
    i2c_pageread 2 0x10 [7; 7; 7; 7] 3 (Replay false [0x40; 1; 2; 0xFF])
    = Ret b t s'
    /\ b !! (Z.to_nat 3 - 1)%nat = Some 0
    /\ length (data_reads t) = Z.to_nat 3
    /\ b = take (Z.to_nat 3 - 1) (data_reads t)
           ++ 0 :: drop (Z.to_nat 3) [7; 7; 7; 7].
Proof.
  apply (i2c_pageread_terminator replay 2 2 0x10 [7; 7; 7; 7] 3
           (Replay false [0x40; 1; 2; 0xFF]));
    [exact replay_responsive | lia | lia | simpl; lia].
Defined.



(** * Further properties of the driver *)

(** ** Configuration: [i2c_init] and [i2c_set_MCU_address] *)

Lemma u16_kHz_zero (freq : Z) :
  0 <= freq < 65536 -> (u16 (freq * 1000) = 0 <-> freq mod 8192 = 0).
Proof.
  intros Hf. unfold u16. change (2 ^ 16) with 65536. split; intros H.
  - apply Z.mod_divide in H; [|lia]. destruct H as [k Hk].
    assert (Hg : (8192 | 125 * freq)) by (exists k; lia).
    apply Z.gauss in Hg.
    + apply Z.mod_divide; [lia|exact Hg].
    + reflexivity.
  - apply Z.mod_divide in H; [|lia]. destruct H as [k Hk].
    apply Z.mod_divide; [lia|]. exists (125 * k). lia.
Qed.

Lemma i2c_init_defined_aux {dev : Type} `{!Twi dev} (freq : Z) (s : dev) :
  0 <= freq < 65536 -> freq mod 8192 <> 0 ->
  exists s',
    i2c_init freq s
    = Ret tt [Wr TWSR 0;
              Wr TWBR (u8 (u32 (F_CPU / u16 (freq * 1000) - 16) / 2));
              Wr TWCR 4] s'.
Proof.
  intros Hf Hm. pose proof (u16_kHz_zero freq Hf) as Hz.
  unfold i2c_init, bind.
  change (reg_write TWSR 0 s) with (Ret tt [Wr TWSR 0] (reg_store TWSR 0 s)).
  cbv beta iota zeta.
  destruct (Z.eqb_spec (u16 (freq * 1000)) 0) as [Heq|Hne].
  - exfalso. apply Hm. now apply Hz.
  - eexists. reflexivity.
Qed.

(** X1. [i2c_init] divides by the 16-bit product [freq * 1000]; for a
    [uint16_t] argument that product is 0,
    and the call undefined, exactly when [freq] is a multiple of 8192
    (0 included).  For every other argument the call returns after three
    stores (TWSR, TWBR, TWCR), triggers no bus operation and loads no
    register. *)
Theorem i2c_init_defined (dev : Type) `{!Twi dev} (freq : Z) (s : dev) :
  0 <= freq < 65536 ->
  (i2c_init freq s = Undef <-> freq mod 8192 = 0)
  /\ (freq mod 8192 <> 0 ->
      exists v s',
        i2c_init freq s = Ret tt [Wr TWSR 0; Wr TWBR v; Wr TWCR 4] s'
        /\ 0 <= v < 256
        /\ bus_ops [Wr TWSR 0; Wr TWBR v; Wr TWCR 4] = []).
Proof.
  intros Hf. pose proof (u16_kHz_zero freq Hf) as Hz.
  unfold i2c_init, bind.
  change (reg_write TWSR 0 s) with (Ret tt [Wr TWSR 0] (reg_store TWSR 0 s)).
  cbv beta iota zeta.
  destruct (Z.eqb_spec (u16 (freq * 1000)) 0) as [Heq|Hne].
  - split; [split; [intros _; now apply Hz | reflexivity]|].
    intros Hm. exfalso. apply Hm. now apply Hz.
  - split.
    + split; [discriminate|]. intros Hm. exfalso. apply Hne. now apply Hz.
    + intros _. eexists _, _. split; [reflexivity|]. split; [apply u8_range|].
      reflexivity.
Qed.

Lemma i2c_init_defined_witness :
  (i2c_init 8192 Stuck = Undef <-> 8192 mod 8192 = 0)
  /\ (100 mod 8192 <> 0 ->
      exists v s',
        i2c_init 100 Stuck = Ret tt [Wr TWSR 0; Wr TWBR v; Wr TWCR 4] s'
        /\ 0 <= v < 256
        /\ bus_ops [Wr TWSR 0; Wr TWBR v; Wr TWCR 4] = []).
Proof.
  split.
  - apply (i2c_init_defined stuck 8192 Stuck). lia.
  - apply (i2c_init_defined stuck 100 Stuck). lia.
Defined.

(** X2. For a [uint16_t] argument on which [i2c_init] is defined, the byte
    stored into TWBR is the divisor [(F_CPU / (freq * 1000) - 16) / 2]
    exactly for 16 kHz to 65 kHz: below, the divisor does not fit the
    8-bit register; above, [freq * 1000] does not fit 16 bits (or, from
    501 kHz on, the divisor is negative). *)
Theorem i2c_init_divisor_range (dev : Type) `{!Twi dev} (freq : Z) (s : dev) :
  0 <= freq < 65536 -> freq mod 8192 <> 0 ->
  exists t s',
    i2c_init freq s = Ret tt t s'
    /\ (stores_to TWBR t = [(F_CPU / (freq * 1000) - 16) / 2]
        <-> 16 <= freq <= 65).
Proof.
  intros Hf Hm.
  destruct (i2c_init_defined_aux freq s Hf Hm) as (s' & Heq).
  set (v := u8 (u32 (F_CPU / u16 (freq * 1000) - 16) / 2)) in *.
  exists [Wr TWSR 0; Wr TWBR v; Wr TWCR 4], s'. split; [exact Heq|].
  change (stores_to TWBR [Wr TWSR 0; Wr TWBR v; Wr TWCR 4]) with [v].
  assert (Hv : 0 <= v < 256) by apply u8_range.
  assert (Hnz : freq <> 0) by (intros ->; now apply Hm).
  split.
  - intros [= Hvf].
    destruct (Z_le_gt_dec freq 15) as [Hlow|Hlow].
    { exfalso.
      assert (533 <= F_CPU / (freq * 1000))
        by (apply Z.div_le_lower_bound; unfold F_CPU; lia).
      assert (258 <= (F_CPU / (freq * 1000) - 16) / 2)
        by (apply Z.div_le_lower_bound; lia).
      lia. }
    destruct (Z_le_gt_dec freq 65) as [Hmid|Hmid]; [lia|].
    exfalso.
    destruct (Z_le_gt_dec freq 500) as [Hup|Hup].
    + assert (Hall : forallb
                (fun f => negb (u8 (u32 (F_CPU / u16 (f * 1000) - 16) / 2)
                                =? (F_CPU / (f * 1000) - 16) / 2))
                (seqZ 66 435) = true) by (vm_compute; reflexivity).
      rewrite forallb_forall in Hall.
      specialize (Hall freq).
      rewrite <- list_elem_of_In, elem_of_seqZ in Hall.
      specialize (Hall ltac:(lia)). fold v in Hall.
      apply negb_true_iff, Z.eqb_neq in Hall. contradiction.
    + assert (F_CPU / (freq * 1000) < 16)
        by (apply Z.div_lt_upper_bound; unfold F_CPU; lia).
      assert ((F_CPU / (freq * 1000) - 16) / 2 < 0)
        by (apply Z.div_lt_upper_bound; lia).
      lia.
  - intros Hr.
    destruct (i2c_init_divisor_exact dev freq s Hr) as (s'' & Heq').
    rewrite Heq in Heq'. now injection Heq' as -> _.
Qed.

Lemma i2c_init_divisor_range_witness :
  exists t s',
    i2c_init 400 Stuck = Ret tt t s'
    /\ (stores_to TWBR t = [(F_CPU / (400 * 1000) - 16) / 2]
        <-> 16 <= 400 <= 65).
Proof.
  apply (i2c_init_divisor_range stuck 400 Stuck); [lia | discriminate].
Defined.

Lemma u8_land (x : Z) : u8 x = Z.land x 255.
Proof. unfold u8. now rewrite <- (Z.land_ones x 8) by lia. Qed.

Lemma u8_lor_1 (x : Z) : u8 (Z.lor x 1) = Z.lor (u8 x) 1.
Proof. rewrite !u8_land. now rewrite Z.land_lor_distr_l. Qed.

Lemma u8_shiftl_1 (x : Z) : u8 (x ≪ 1) = 2 * (x mod 128).
Proof.
  unfold u8. rewrite Z.shiftl_mul_pow2 by lia.
  change (2 ^ 1) with 2. change (2 ^ 8) with (128 * 2).
  rewrite Z.mul_mod_distr_r by lia. lia.
Qed.

(** X3. [i2c_set_MCU_address] stores the address shifted left by one
    into the 8-bit TWAR and then enables the unit with acknowledgment
    (TWEN and TWEA, nothing else) in TWCR.  For every [uint8_t] argument
    the stored byte holds the low seven bits of the address in its bits
    7..1 and has bit 0 (general-call recognition) clear.  The function
    neither waits nor triggers a bus operation: it returns on every
    device. *)
Theorem i2c_set_MCU_address_stores (dev : Type) `{!Twi dev} (Address : Z)
    (s : dev) :
  0 <= Address < 256 ->
  exists v,
    i2c_set_MCU_address Address s
    = Ret tt [Wr TWAR v; Wr TWCR (Z.lor (1 ≪ TWEN) (1 ≪ TWEA))]
        (reg_store TWCR (Z.lor (1 ≪ TWEN) (1 ≪ TWEA)) (reg_store TWAR v s))
    /\ v ≫ 1 = Address mod 128
    /\ Z.testbit v 0 = false
    /\ bus_ops [Wr TWAR v; Wr TWCR (Z.lor (1 ≪ TWEN) (1 ≪ TWEA))] = [].
Proof.
  intros HA. exists (u8 (Address ≪ 1)). split; [reflexivity|].
  rewrite u8_shiftl_1. split; [|split].
  - rewrite Z.shiftr_div_pow2 by lia. change (2 ^ 1) with 2.
    rewrite Z.mul_comm. apply Z.div_mul. lia.
  - apply Z.testbit_even_0.
  - reflexivity.
Qed.

Lemma i2c_set_MCU_address_stores_witness :
  exists v,
    i2c_set_MCU_address 0xC2 Stuck
    = Ret tt [Wr TWAR v; Wr TWCR (Z.lor (1 ≪ TWEN) (1 ≪ TWEA))]
        (reg_store TWCR (Z.lor (1 ≪ TWEN) (1 ≪ TWEA)) (reg_store TWAR v Stuck))
    /\ v ≫ 1 = 0xC2 mod 128
    /\ Z.testbit v 0 = false
    /\ bus_ops [Wr TWAR v; Wr TWCR (Z.lor (1 ≪ TWEN) (1 ≪ TWEA))] = [].
Proof.
  apply (i2c_set_MCU_address_stores stuck 0xC2 Stuck). lia.
Defined.

(** ** Slave addresses *)

Lemma sla_w_alias (a : Z) : u8 ((a + 128) ≪ 1) = u8 (a ≪ 1).
Proof.
  rewrite !u8_shiftl_1. f_equal.
  rewrite <- (Z.mul_1_l 128) at 1. apply Z.mod_add. lia.
Qed.

Lemma sla_r_alias (a : Z) :
  u8 (Z.lor ((a + 128) ≪ 1) 1) = u8 (Z.lor (a ≪ 1) 1).
Proof. now rewrite !u8_lor_1, sla_w_alias. Qed.

(** X4. Only the low seven bits of [Slave_Address] reach the bus: the
    four composed transactions behave on [Slave_Address + 128] exactly as
    on [Slave_Address] (same result, same register accesses, same final
    device state), on every device and for every fuel. *)
Theorem slave_address_seven_bits (dev : Type) `{!Twi dev} (fuel : nat)
    (Slave_Address Data len : Z) (str buffer : list Z) (s : dev) :
  i2c_writeByte fuel (Slave_Address + 128) Data s
  = i2c_writeByte fuel Slave_Address Data s
  /\ i2c_readByte fuel (Slave_Address + 128) s
     = i2c_readByte fuel Slave_Address s
  /\ i2c_pagewrite fuel (Slave_Address + 128) str s
     = i2c_pagewrite fuel Slave_Address str s
  /\ i2c_pageread fuel (Slave_Address + 128) buffer len s
     = i2c_pageread fuel Slave_Address buffer len s.
Proof.
  unfold i2c_writeByte, i2c_readByte, i2c_pagewrite, i2c_pageread.
  now rewrite sla_w_alias, sla_r_alias.
Qed.

(** ** A bus that never answers *)

Lemma i2c_start_never_flagged {dev : Type} `{!Twi dev} (fuel : nat) (s : dev) :
  never_flagged_from (reg_store TWCR CW_START s) -> i2c_start fuel s = Spin.
Proof.
  intros Hnf. unfold i2c_start. eapply bind_Ret_Spin; [reflexivity|].
  now apply wait_TWINT_never_flagged.
Qed.

Lemma stuck_never_flagged (s : stuck) : never_flagged_from s.
Proof.
  intros k. unfold poll_value.
  assert (Hk : forall n s0, after_polls n (s0 : stuck) = s0)
    by (induction n as [|n IH]; intros s0; simpl; auto).
  rewrite Hk. reflexivity.
Qed.

(** X5. No transaction has a timeout.  If, once the start word has been
    stored into TWCR, no load of TWCR ever shows the ready flag, then
    [i2c_start] does not return, whatever the fuel, and neither does any
    of the four composed transactions, whatever their arguments.  Only
    the loads that follow the store of the start word are assumed to
    show no flag: nothing is assumed of the device after any other
    store. *)
Theorem transactions_hang_without_ready_flag (dev : Type) `{!Twi dev}
    (s : dev) :
  never_flagged_from (reg_store TWCR CW_START s) ->
  forall (fuel : nat) (Slave_Address Data len : Z) (str buffer : list Z),
    i2c_start fuel s = Spin
    /\ i2c_writeByte fuel Slave_Address Data s = Spin
    /\ i2c_readByte fuel Slave_Address s = Spin
    /\ i2c_pagewrite fuel Slave_Address str s = Spin
    /\ i2c_pageread fuel Slave_Address buffer len s = Spin.
Proof.
  intros Hnf fuel a d len str buffer.
  pose proof (i2c_start_never_flagged fuel s Hnf) as Hs.
  split; [exact Hs|].
  unfold i2c_writeByte, i2c_readByte, i2c_pagewrite, i2c_pageread.
  repeat split; apply bind_Spin; exact Hs.
Qed.

Lemma transactions_hang_without_ready_flag_witness :
  i2c_start 1000 Stuck = Spin
  /\ i2c_writeByte 1000 0x10 0xAA Stuck = Spin
  /\ i2c_readByte 1000 0x10 Stuck = Spin
  /\ i2c_pagewrite 1000 0x10 [0x41; 0] Stuck = Spin
  /\ i2c_pageread 1000 0x10 [0; 0] 2 Stuck = Spin.
Proof.
  apply (transactions_hang_without_ready_flag stuck Stuck
           (stuck_never_flagged _) 1000 0x10 0xAA 2 [0x41; 0] [0; 0]).
Defined.

(** ** Shapes of the primitive traces *)


Lemma framed_write_shape d t sr :
  polls t -> framed (Wr TWDR d :: Wr TWCR CW_XFER :: t ++ [Rd TWSR sr]) [Write d].
Proof.
  intros Hp rest.
  change (Write d :: decode None ((t ++ [Rd TWSR sr]) ++ rest)
          = [Write d] ++ decode None rest).
  now rewrite <- app_assoc, decode_polls.
Qed.



Section Transactions.
Context {dev : Type} `{!Twi dev}.
Variables (bound fuel : nat).
Hypothesis Hresp : responsive dev bound.
Hypothesis Hfuel : (bound <= fuel)%nat.

(** One [i2c_write], with everything its trace shows. *)
Lemma i2c_write_full (Data : Z) (s : dev) :
  exists r t sr s',
    i2c_write fuel Data s = Ret r t s'
    /\ framed t [Write (u8 Data)]
    /\ status_reads t = [sr] /\ data_reads t = []
    /\ (acked sr /\ r = 1 \/ ~ acked sr /\ r = 0).
Proof.
  destruct (i2c_write_eq bound fuel Hresp Hfuel Data s)
    as (t & sr & s' & Heq & Hp & _).
  eexists _, _, sr, s'. split; [exact Heq|]. split; [now apply framed_write_shape|].
  split; [|split].
  - simpl. now rewrite status_reads_app, status_reads_polls.
  - simpl. now rewrite data_reads_app, data_reads_polls.
  - unfold acked. destruct (bool_decide_reflect (Z.land sr 0xF8 ∈ ack_codes)); auto.
Qed.


End Transactions.

(** ** Page write in full *)



(** ** Single-byte transactions *)



(** X8. Sending one non-zero byte with [i2c_pagewrite] is [i2c_writeByte]
    up to the stop: on a device that releases every busy-wait, when
    [i2c_pagewrite] on the one-byte string returns 1, [i2c_writeByte]
    from the same state makes the very same register accesses and leaves
    the device in the same state; when it returns 0, [i2c_writeByte]
    makes the same accesses followed by the store of the stop word. *)
Theorem i2c_pagewrite_one_byte (dev : Type) `{!Twi dev} (bound fuel : nat)
    (Slave_Address Data : Z) (s : dev) :
  responsive dev bound -> (bound <= fuel)%nat -> 0 < Data < 256 ->
  exists r t s',
    i2c_pagewrite fuel Slave_Address [Data; 0] s = Ret r t s'
    /\ ((r = 1 /\ i2c_writeByte fuel Slave_Address Data s = Ret tt t s')
        \/ (r = 0
            /\ i2c_writeByte fuel Slave_Address Data s
               = Ret tt (t ++ [Wr TWCR CW_STOP]) (reg_store TWCR CW_STOP s'))).
Proof.
  intros Hresp Hfuel HD. unfold i2c_pagewrite, i2c_writeByte.
  destruct (i2c_start_eq bound fuel Hresp Hfuel s) as (t0 & s0 & Hs & Hp0).
  destruct (i2c_write_full bound fuel Hresp Hfuel (u8 (Slave_Address ≪ 1)) s0)
    as (r1 & t1 & sr0 & s1 & Hw & _).
  destruct (i2c_write_full bound fuel Hresp Hfuel Data s1)
    as (r2 & t2 & sr & s2 & Hw2 & _ & _ & _ & Hr2).
  assert (Hloop : pagewrite_loop fuel [Data; 0] s1
                  = Ret (if r2 =? 0 then Some 0 else None) (t2 ++ []) s2).
  { simpl. destruct (Z.eqb_spec Data 0) as [|_]; [lia|].
    rewrite (u8_small Data) by lia.
    eapply bind_Ret; [exact Hw2|]. destruct (r2 =? 0); reflexivity. }
  destruct Hr2 as [[_ ->] | [_ ->]]; simpl in Hloop.
  - eexists 1, _, _. split.
    { eapply bind_Ret; [exact Hs|]. eapply bind_Ret; [exact Hw|].
      eapply bind_Ret; [exact Hloop|]. eapply bind_Ret; reflexivity. }
    left. split; [reflexivity|].
    erewrite bind_Ret; [|exact Hs|].
    2:{ eapply bind_Ret; [exact Hw|]. eapply bind_Ret; [exact Hw2|reflexivity]. }
    now rewrite !app_nil_r.
  - eexists 0, _, _. split.
    { eapply bind_Ret; [exact Hs|]. eapply bind_Ret; [exact Hw|].
      eapply bind_Ret; [exact Hloop|]. reflexivity. }
    right. split; [reflexivity|].
    erewrite bind_Ret; [|exact Hs|].
    2:{ eapply bind_Ret; [exact Hw|]. eapply bind_Ret; [exact Hw2|reflexivity]. }
    now rewrite !app_nil_r, <- !app_assoc.
Qed.

Lemma i2c_pagewrite_one_byte_witness :
  exists r t s',
    i2c_pagewrite 2 0x10 [0xAA; 0] (Replay false [0x18; 0x30]) = Ret r t s'
    /\ ((r = 1
         /\ i2c_writeByte 2 0x10 0xAA (Replay false [0x18; 0x30]) = Ret tt t s')
        \/ (r = 0
            /\ i2c_writeByte 2 0x10 0xAA (Replay false [0x18; 0x30])
               = Ret tt (t ++ [Wr TWCR CW_STOP]) (reg_store TWCR CW_STOP s'))).
Proof.
  apply (i2c_pagewrite_one_byte replay 2 2 0x10 0xAA (Replay false [0x18; 0x30]));
    [exact replay_responsive | lia | lia].
Defined.

Lemma pageread_loop_unfold {dev : Type} `{!Twi dev} (fuel n : nat)
    (i len : Z) (buffer : list Z) :
  pageread_loop fuel (S n) i len buffer
  = if i <? len then
      bind (if i =? len - 1 then i2c_read_no_ack fuel else i2c_read_ack fuel)
        (fun c => bind (buf_store buffer i c)
           (fun buffer' => pageread_loop fuel n (u8 (i + 1)) len buffer'))
    else ret buffer.
Proof. reflexivity. Qed.

(** X9. Reading one byte with [i2c_pageread] is the bus transaction of
    [i2c_readByte] without its result: on a device that releases every
    busy-wait and for a buffer of at least one cell, [i2c_pageread] with
    length 1 makes the same register accesses as [i2c_readByte] from the
    same state and leaves the device in the same state, but where
    [i2c_readByte] returns the byte received, [i2c_pageread] leaves 0 in
    cell 0 of the buffer and the other cells as they were. *)
Theorem i2c_pageread_one_byte (dev : Type) `{!Twi dev} (bound fuel : nat)
    (Slave_Address : Z) (buffer : list Z) (s : dev) :
  responsive dev bound -> (bound <= fuel)%nat -> (1 <= length buffer)%nat ->
  exists v t s',
    i2c_readByte fuel Slave_Address s = Ret v t s'
    /\ data_reads t = [v]
    /\ i2c_pageread fuel Slave_Address buffer 1 s
       = Ret (<[0%nat := 0]> buffer) t s'.
Proof.
  intros Hresp Hfuel Hbuf.
  destruct (i2c_start_eq bound fuel Hresp Hfuel s) as (t0 & s0 & Hs & Hp0).
  destruct (i2c_write_full bound fuel Hresp Hfuel
              (u8 (Z.lor (Slave_Address ≪ 1) 1)) s0)
    as (r1 & t1 & sr & s1 & Hw & _ & _ & Hd1 & _).
  destruct (i2c_read_no_ack_eq bound fuel Hresp Hfuel s1)
    as (t2 & v & s2 & Hr & Hp2 & Hv).
  destruct buffer as [|x rest]; [simpl in Hbuf; lia|].
  assert (Hloop : pageread_loop fuel 256 0 1 (x :: rest) s1
                  = Ret (v :: rest)
                      ((Wr TWCR CW_XFER :: t2 ++ [Rd TWDR v]) ++ [] ++ []) s2).
  { change 256%nat with (S 255). rewrite pageread_loop_unfold.
    change (0 <? 1) with true. change (0 =? 1 - 1) with true. cbv iota.
    eapply bind_Ret; [exact Hr|].
    unfold buf_store.
    replace ((0 <=? 0) && (0 <? Z.of_nat (length (x :: rest)))) with true
      by (symmetry; apply andb_true_intro; split;
          [reflexivity | apply Z.ltb_lt; simpl; lia]).
    rewrite (u8_small v Hv).
    eapply bind_Ret; [reflexivity|].
    change (u8 (0 + 1)) with 1. change 255%nat with (S 254).
    rewrite pageread_loop_unfold. change (1 <? 1) with false. cbv iota.
    reflexivity. }
  exists v, ((Wr TWCR CW_START :: t0) ++ t1
             ++ (Wr TWCR CW_XFER :: t2 ++ [Rd TWDR v]) ++ [Wr TWCR CW_STOP]), 
    (reg_store TWCR CW_STOP s2).
  split; [|split].
  - unfold i2c_readByte.
    erewrite bind_Ret; [|exact Hs|].
    2:{ eapply bind_Ret; [exact Hw|]. eapply bind_Ret; [exact Hr|].
        eapply bind_Ret; reflexivity. }
    now rewrite !app_nil_r.
  - rewrite !data_reads_app. simpl.
    rewrite !data_reads_app, Hd1, (data_reads_polls _ Hp0),
      (data_reads_polls _ Hp2). reflexivity.
  - unfold i2c_pageread.
    erewrite bind_Ret; [|exact Hs|].
    2:{ eapply bind_Ret; [exact Hw|]. eapply bind_Ret; [exact Hloop|].
        change (1 >? 0) with true. cbv iota.
        eapply bind_Ret; [reflexivity|]. eapply bind_Ret; reflexivity. }
    now rewrite !app_nil_r.
Qed.

Lemma i2c_pageread_one_byte_witness :
  exists v t s',
    i2c_readByte 2 0x10 (Replay false [0x40; 0x5A]) = Ret v t s'
    /\ data_reads t = [v]
    /\ i2c_pageread 2 0x10 [7; 7] 1 (Replay false [0x40; 0x5A])
       = Ret (<[0%nat := 0]> [7; 7]) t s'.
Proof.
  apply (i2c_pageread_one_byte replay 2 2 0x10 [7; 7] (Replay false [0x40; 0x5A]));
    [exact replay_responsive | lia | simpl; lia].
Defined.

(** ** Framing *)



(** ** The waiting primitives *)

(** X11. On a device that releases every busy-wait, [i2c_start],
    [i2c_read_ack] and [i2c_read_no_ack] each store their control word
    into TWCR once and then load TWCR up to the first load that shows
    the ready flag; none of them ever loads the status register, so a
    start or a reception that failed on the bus is not noticed at this
    level.  [i2c_start] then returns; the two reads load the data
    register once, in the state the device has right after the load that
    showed the flag, and return that byte (0 .. 255) unchecked. *)
Theorem waiting_primitives_unchecked (dev : Type) `{!Twi dev}
    (bound fuel : nat) (s : dev) :
  responsive dev bound -> (bound <= fuel)%nat ->
  (exists k s1,
      s1 = reg_store TWCR CW_START s
      /\ first_ready k s1
      /\ i2c_start fuel s
         = Ret tt (Wr TWCR CW_START :: poll_trace (S k) s1) (after_polls (S k) s1)
      /\ status_reads (Wr TWCR CW_START :: poll_trace (S k) s1) = [])
  /\ (exists k s1 s2 v,
         s1 = reg_store TWCR CW_XFER_ACK s
         /\ first_ready k s1
         /\ s2 = after_polls (S k) s1
         /\ v = u8 (reg_load TWDR s2).1
         /\ i2c_read_ack fuel s
            = Ret v (Wr TWCR CW_XFER_ACK :: poll_trace (S k) s1 ++ [Rd TWDR v])
                (reg_load TWDR s2).2
         /\ 0 <= v < 256
         /\ status_reads
              (Wr TWCR CW_XFER_ACK :: poll_trace (S k) s1 ++ [Rd TWDR v]) = [])
  /\ (exists k s1 s2 v,
         s1 = reg_store TWCR CW_XFER s
         /\ first_ready k s1
         /\ s2 = after_polls (S k) s1
         /\ v = u8 (reg_load TWDR s2).1
         /\ i2c_read_no_ack fuel s
            = Ret v (Wr TWCR CW_XFER :: poll_trace (S k) s1 ++ [Rd TWDR v])
                (reg_load TWDR s2).2
         /\ 0 <= v < 256
         /\ status_reads
              (Wr TWCR CW_XFER :: poll_trace (S k) s1 ++ [Rd TWDR v]) = []).
Proof.
  intros Hresp Hfuel. split; [|split].
  - destruct (i2c_start_run bound fuel Hresp Hfuel s) as (k & Hfr & Heq).
    eexists k, _. split; [reflexivity|]. split; [exact Hfr|].
    split; [exact Heq|].
    simpl. apply status_reads_polls, polls_poll_trace.
  - destruct (i2c_read_ack_run bound fuel Hresp Hfuel s) as (k & Hfr & Heq).
    eexists k, _, _, _. split; [reflexivity|]. split; [exact Hfr|].
    split; [reflexivity|]. split; [reflexivity|]. split; [exact Heq|].
    split; [apply u8_range|].
    change (status_reads (poll_trace (S k) (reg_store TWCR CW_XFER_ACK s)
                          ++ [Rd TWDR (u8 (reg_load TWDR
                                (after_polls (S k)
                                   (reg_store TWCR CW_XFER_ACK s))).1)]) = []).
    now rewrite status_reads_app, (status_reads_polls _ (polls_poll_trace _ _)).
  - destruct (i2c_read_no_ack_run bound fuel Hresp Hfuel s) as (k & Hfr & Heq).
    eexists k, _, _, _. split; [reflexivity|]. split; [exact Hfr|].
    split; [reflexivity|]. split; [reflexivity|]. split; [exact Heq|].
    split; [apply u8_range|].
    change (status_reads (poll_trace (S k) (reg_store TWCR CW_XFER s)
                          ++ [Rd TWDR (u8 (reg_load TWDR
                                (after_polls (S k)
                                   (reg_store TWCR CW_XFER s))).1)]) = []).
    now rewrite status_reads_app, (status_reads_polls _ (polls_poll_trace _ _)).
Qed.

Lemma waiting_primitives_unchecked_witness :
  (exists k s1,
      s1 = reg_store TWCR CW_START (Replay false [0x38])
      /\ first_ready k s1
      /\ i2c_start 2 (Replay false [0x38])
         = Ret tt (Wr TWCR CW_START :: poll_trace (S k) s1) (after_polls (S k) s1)
      /\ status_reads (Wr TWCR CW_START :: poll_trace (S k) s1) = [])
  /\ (exists k s1 s2 v,
         s1 = reg_store TWCR CW_XFER_ACK (Replay false [0x38])
         /\ first_ready k s1
         /\ s2 = after_polls (S k) s1
         /\ v = u8 (reg_load TWDR s2).1
         /\ i2c_read_ack 2 (Replay false [0x38])
            = Ret v (Wr TWCR CW_XFER_ACK :: poll_trace (S k) s1 ++ [Rd TWDR v])
                (reg_load TWDR s2).2
         /\ 0 <= v < 256
         /\ status_reads
              (Wr TWCR CW_XFER_ACK :: poll_trace (S k) s1 ++ [Rd TWDR v]) = [])
  /\ (exists k s1 s2 v,
         s1 = reg_store TWCR CW_XFER (Replay false [0x38])
         /\ first_ready k s1
         /\ s2 = after_polls (S k) s1
         /\ v = u8 (reg_load TWDR s2).1
         /\ i2c_read_no_ack 2 (Replay false [0x38])
            = Ret v (Wr TWCR CW_XFER :: poll_trace (S k) s1 ++ [Rd TWDR v])
                (reg_load TWDR s2).2
         /\ 0 <= v < 256
         /\ status_reads
              (Wr TWCR CW_XFER :: poll_trace (S k) s1 ++ [Rd TWDR v]) = []).
Proof.
  apply (waiting_primitives_unchecked replay 2 2 (Replay false [0x38]));
    [exact replay_responsive | lia].
Defined.

(** ** What the caller must provide *)

Lemma bind_Undef {dev A B} (m : M dev A) (f : A -> M dev B) s :
  m s = Undef -> bind m f s = Undef.
Proof. intros Hm. unfold bind. now rewrite Hm. Qed.

Lemma bind_Ret_Undef {dev A B} (m : M dev A) (f : A -> M dev B) s a t s1 :
  m s = Ret a t s1 -> f a s1 = Undef -> bind m f s = Undef.
Proof. intros Hm Hf. unfold bind. now rewrite Hm, Hf. Qed.

Section Bounds.
Context {dev : Type} `{!Twi dev}.
Variables (bound fuel : nat).
Hypothesis Hresp : responsive dev bound.
Hypothesis Hfuel : (bound <= fuel)%nat.

Lemma pageread_read_returns (i len : Z) (s : dev) :
  exists c t s',
    (if i =? len - 1 then i2c_read_no_ack fuel else i2c_read_ack fuel) s
    = Ret c t s' /\ 0 <= c < 256.
Proof.
  destruct (i =? len - 1).
  - destruct (i2c_read_no_ack_eq bound fuel Hresp Hfuel s)
      as (t & v & s' & Heq & _ & Hv). eexists _, _, _. split; [exact Heq|exact Hv].
  - destruct (i2c_read_ack_eq bound fuel Hresp Hfuel s)
      as (t & v & s' & Heq & _ & Hv). eexists _, _, _. split; [exact Heq|exact Hv].
Qed.

(** The loop runs into the end of a buffer that is too short. *)
Lemma pageread_loop_overflow (n : nat) (i len : Z) (buffer : list Z) (s : dev) :
  0 <= i <= Z.of_nat (length buffer) -> Z.of_nat (length buffer) < len ->
  len <= 255 -> (Z.to_nat (len - i) <= n)%nat ->
  pageread_loop fuel n i len buffer s = Undef.
Proof.
  revert i buffer s. induction n as [|n IH]; intros i buffer s Hi Hshort Hlen Hn.
  - lia.
  - rewrite pageread_loop_unfold.
    destruct (Z.ltb_spec i len) as [_|Hge]; [|lia].
    destruct (pageread_read_returns i len s) as (c & t & s1 & Hr & Hc).
    eapply bind_Ret_Undef; [exact Hr|].
    unfold buf_store.
    destruct (Z.ltb_spec i (Z.of_nat (length buffer))) as [Hin|Hout].
    + replace (0 <=? i) with true by (symmetry; apply Z.leb_le; lia).
      eapply bind_Ret_Undef; [reflexivity|].
      rewrite (u8_small (i + 1)) by lia.
      apply IH; rewrite ?length_insert; lia.
    + rewrite andb_false_r. now apply bind_Undef.
Qed.

(** On a string without terminator whose bytes are all acknowledged the
    loop runs off the end of the array. *)
Lemma pagewrite_loop_unterminated (str : list Z) (s : dev) :
  (forall s0 : dev, acked (u8 (reg_load TWSR s0).1)) -> 0 ∉ str ->
  pagewrite_loop fuel str s = Undef.
Proof.
  intros Hack. revert s. induction str as [|c str IH]; intros s Hnot.
  - reflexivity.
  - apply not_elem_of_cons in Hnot as [Hc Hnot]. simpl.
    destruct (Z.eqb_spec c 0) as [|_]; [congruence|].
    set (s1 := reg_store TWCR CW_XFER (reg_store TWDR (u8 (u8 c)) s)).
    destruct (wait_TWINT_responsive bound fuel s1 Hresp Hfuel) as (t & s2 & Hw).
    assert (Hwr : exists t', i2c_write fuel (u8 c) s = Ret 1 t' (reg_load TWSR s2).2).
    { unfold i2c_write, bind, reg_write.
      change (u8 (Z.lor (1 ≪ TWINT) (1 ≪ TWEN))) with CW_XFER.
      fold s1. rewrite Hw, reg_read_eq.
      specialize (Hack s2). unfold acked, ack_codes in Hack.
      rewrite !elem_of_cons, elem_of_nil in Hack.
      set (st := Z.land (u8 (reg_load TWSR s2).1) 248) in *.
      destruct Hack as [->|[->|[->|[->|[]]]]]; eexists; reflexivity. }
    destruct Hwr as (t' & Hwr).
    eapply bind_Ret_Undef; [exact Hwr|]. apply IH, Hnot.
Qed.

End Bounds.

(** X12. [i2c_pageread] does not know the size of the caller's buffer: on
    a device that releases every busy-wait, a call whose length (at most
    255) exceeds the number of cells of the buffer stores past its end,
    which is undefined. *)
Theorem i2c_pageread_buffer_too_short (dev : Type) `{!Twi dev}
    (bound fuel : nat) (Slave_Address : Z) (buffer : list Z) (len : Z)
    (s : dev) :
  responsive dev bound -> (bound <= fuel)%nat ->
  Z.of_nat (length buffer) < len -> len <= 255 ->
  i2c_pageread fuel Slave_Address buffer len s = Undef.
Proof.
  intros Hresp Hfuel Hshort Hlen. unfold i2c_pageread.
  destruct (i2c_start_eq bound fuel Hresp Hfuel s) as (t0 & s0 & Hs & _).
  destruct (i2c_write_eq bound fuel Hresp Hfuel
              (u8 (Z.lor (Slave_Address ≪ 1) 1)) s0)
    as (t1 & sr & s1 & Hw & _).
  eapply bind_Ret_Undef; [exact Hs|].
  eapply bind_Ret_Undef; [exact Hw|].
  apply bind_Undef.
  apply (pageread_loop_overflow bound fuel Hresp Hfuel); lia.
Qed.

Lemma i2c_pageread_buffer_too_short_witness :
  i2c_pageread 2 0x10 [7; 7] 3 (Replay false [0x40; 1; 2; 3]) = Undef.
Proof.
  apply (i2c_pageread_buffer_too_short replay 2 2 0x10 [7; 7] 3
           (Replay false [0x40; 1; 2; 3]));
    [exact replay_responsive | lia | simpl; lia | lia].
Defined.

Lemma compliant_responsive : responsive compliant 1.
Proof. intros []. eexists _, _. reflexivity. Qed.

Lemma compliant_acks (s0 : compliant) : acked (u8 (reg_load TWSR s0).1).
Proof.
  unfold acked, ack_codes. change (Z.land _ _) with 40.
  rewrite !elem_of_cons. auto.
Qed.

Lemma no_terminator_AB : 0 ∉ [0x41; 0x42].
Proof.
  rewrite !not_elem_of_cons. repeat split; try discriminate.
  apply not_elem_of_nil.
Qed.

(** X13. [i2c_pagewrite] finds the end of its data by the terminator
    alone: on a device that releases every busy-wait and acknowledges
    every byte, a call on an array without a zero cell reads past the end
    of the array, which is undefined. *)
Theorem i2c_pagewrite_unterminated (dev : Type) `{!Twi dev}
    (bound fuel : nat) (Slave_Address : Z) (str : list Z) (s : dev) :
  responsive dev bound -> (bound <= fuel)%nat ->
  (forall s0 : dev, acked (u8 (reg_load TWSR s0).1)) -> 0 ∉ str ->
  i2c_pagewrite fuel Slave_Address str s = Undef.
Proof.
  intros Hresp Hfuel Hack Hnot. unfold i2c_pagewrite.
  destruct (i2c_start_eq bound fuel Hresp Hfuel s) as (t0 & s0 & Hs & _).
  destruct (i2c_write_eq bound fuel Hresp Hfuel (u8 (Slave_Address ≪ 1)) s0)
    as (t1 & sr & s1 & Hw & _).
  eapply bind_Ret_Undef; [exact Hs|].
  eapply bind_Ret_Undef; [exact Hw|].
  apply bind_Undef.
  now apply (pagewrite_loop_unterminated bound fuel Hresp Hfuel).
Qed.

Lemma i2c_pagewrite_unterminated_witness :
  i2c_pagewrite 1 0x10 [0x41; 0x42] Compliant = Undef.
Proof.
  apply (i2c_pagewrite_unterminated compliant 1 1 0x10 [0x41; 0x42] Compliant);
    [exact compliant_responsive | lia | exact compliant_acks
    | exact no_terminator_AB].
Defined.
